(** * Range materialisation ("fossil") of ephox.robin.anteater.Anteater,
      and the content setter [setContentInternal].

    The first part embeds [src/main/js/ephox/robin/anteater/Anteater.js]:
    the [adt] of break results, [breaker], [slice], [isTop], [breakLeft],
    [breakRight] and [fossil], written against an abstract [Universe]
    (the JavaScript [universe] object) and the modules the file imports.

    The second part embeds [setContentInternal] and the functions it calls
    ([setupArgs], [setContentString], [setContentTree], [setEditorHtml]). *)

From Stdlib Require Import String Ascii ZArith List Bool Lia.
From Stdlib Require Import NArith DecimalString DecimalN.
Import ListNotations.

Set Implicit Arguments.

(* ================================================================== *)
(** * JavaScript effects: a host state and exceptions *)
(* ================================================================== *)

(** What an evaluation can end with besides a value.  [OutOfFuel] is not a
    JavaScript exception: it marks a bounded walk (the upward walk of the
    sample [breakPath]) that was cut before it ended. *)
Inductive error : Type :=
| ReferenceError   (* a free identifier with no binding was read *)
| TypeError        (* a member that is not a function was called *)
| OutOfFuel.

Inductive outcome (A : Type) : Type :=
| Ok (a : A)
| Throw (e : error).
Arguments Throw {A} e.

(** A computation over the host tree [S]: it returns a value or throws, and
    leaves the (possibly mutated) tree behind in both cases. *)
Definition M (S A : Type) : Type := S -> outcome A * S.

Definition ret {S A} (a : A) : M S A := fun t => (Ok a, t).

Definition throw {S A} (e : error) : M S A := fun t => (Throw e, t).

Definition bind {S A B} (c : M S A) (k : A -> M S B) : M S B :=
  fun t =>
    match c t with
    | (Ok a, t') => k a t'
    | (Throw e, t') => (Throw e, t')
    end.

(** A read of the host tree. *)
Definition gets {S A} (f : S -> A) : M S A := fun t => (Ok (f t), t).

Declare Scope js_scope.
Delimit Scope js_scope with js.
Notation "x <- c ;; k" := (bind c (fun x => k))
  (at level 61, c at next level, right associativity) : js_scope.
Notation "c ;;; k" := (bind c (fun _ => k))
  (at level 61, right associativity) : js_scope.
Open Scope js_scope.

(* ================================================================== *)
(** * Arrays (ephox.compass.Arr and Array.prototype.slice) *)
(* ================================================================== *)

Module Arr.

Open Scope Z_scope.

(** Modelled from the spec: Arr.findIndex of ephox.compass, whose code is
    not part of the sources; the [indexOf] of section 4.5.  The index of
    the first element that satisfies [pred], counted from [i], and -1 when
    there is none: the value [slice] tests for at line 50. *)
Fixpoint findIndex_from {A} (i : Z) (xs : list A) (pred : A -> bool) : Z :=
  match xs with
  | [] => -1
  | x :: rest => if pred x then i else findIndex_from (i + 1) rest pred
  end.

Definition findIndex {A} (xs : list A) (pred : A -> bool) : Z :=
  findIndex_from 0 xs pred.

(** [xs.slice(start, stop)] of JavaScript, negative arguments included. *)
Definition array_slice {A} (xs : list A) (start stop : Z) : list A :=
  let len := Z.of_nat (length xs) in
  let k := if start <? 0 then Z.max (len + start) 0 else Z.min start len in
  let final := if stop <? 0 then Z.max (len + stop) 0 else Z.min stop len in
  firstn (Z.to_nat (final - k)) (skipn (Z.to_nat k) xs).

End Arr.

(* ================================================================== *)
(** * JavaScript values the file passes around *)
(* ================================================================== *)

(** A struct with the members [first] and [second]: the two halves of a
    break. *)
Record leftRight (E : Type) : Type := LeftRight {
  lr_first : E;
  lr_second : E
}.

(** What the variable [b] of [breaker] can hold, the answer of
    [Parent.breakAt]: an element handle, or a struct of two halves.  The
    source treats it as an element ([b.dom()], [prepend(b, child)]); the
    design describes the answer of [breakAt] as a pair. *)
Inductive handle (E : Type) : Type :=
| HElement (e : E)
| HLeftRight (b : leftRight E).

(** [x.dom()] as the log lines of the source call it.  The development
    is about universes whose elements carry a [dom] member that answers a
    node, as the elements of the DOM universe do: the source calls it on
    [parent], [child], [common], [start] and [finish] (lines 22, 25, 81
    and 104), and on elements without that member each of these calls
    would throw.  A struct of two halves has the members [first] and
    [second] only, so calling its [dom] throws. *)
Definition dom {E S} (x : handle E) : M S unit :=
  match x with
  | HElement _ => ret tt
  | HLeftRight _ => throw TypeError
  end.

(** What [isTop] can be applied to.  The source declares its parameter as
    [universe]; [Parent.breakPath] and line 81 apply it to an element. *)
Inductive jsarg (E : Type) : Type :=
| ArgUniverse
| ArgElement (e : E).
Arguments ArgUniverse {E}.

(** What a callback answers to the one who calls it with one argument: a
    boolean for a predicate, a function object for a curried function. *)
Inductive jsval (E S : Type) : Type :=
| JBool (b : bool)
| JFunction (f : E -> M S bool).
Arguments JBool {E S} b.

(** JavaScript's ToBoolean: every object, a function included, is true. *)
Definition truthy {E S} (v : jsval E S) : bool :=
  match v with
  | JBool b => b
  | JFunction _ => true
  end.

(** The result struct of [Parent.breakPath]: [first] and the optional
    [second]. *)
Record brokenPath (E : Type) : Type := BrokenPath {
  first : E;
  second : option E
}.

(** [opt.getOr(d)] of ephox.perhaps.Option. *)
Definition getOr {A} (o : option A) (d : A) : A :=
  match o with
  | Some a => a
  | None => d
  end.

(* ================================================================== *)
(** * The universe and the imported modules *)
(* ================================================================== *)

(** The [universe] object: element identity ([universe.eq]), the two
    adjacency reads ([universe.property().parent] and [.children]) and the
    insertion [breaker] calls ([universe.insert().prepend]), which mutates
    the host tree. *)
Class Universe (E S : Type) : Type := {
  universe_eq : E -> E -> bool;
  property_parent : S -> E -> option E;
  property_children : S -> E -> list E;
  insert_prepend : handle E -> E -> M S unit
}.

(** The functions of the imported modules ephox.robin.api.general.Parent,
    ephox.robin.parent.Subset and ephox.sugar.api.PredicateFind, whose code
    is not part of the sources: the Anteater functions are written against
    them and take them as they come.  [Parent.breakAt] and
    [Parent.breakPath] run on the host tree and may change it or throw;
    the ancestor lookups are reads of the tree (section 4.2 of the design:
    no side effects). *)
Class Modules (E S : Type) {U : Universe E S} : Type := {
  (* Parent.breakAt(universe, parent, child) *)
  Parent_breakAt : E -> E -> M S (option (handle E));
  (* Parent.breakPath(universe, item, isTop, breaker) *)
  Parent_breakPath :
    E -> (jsarg E -> jsval E S) -> (E -> E -> M S (option (handle E)))
    -> M S (brokenPath E);
  (* Subset.ancestors(universe, start, finish, isRoot).shared() *)
  Subset_ancestors_shared : S -> E -> E -> (E -> bool) -> option E;
  (* Parent.sharedOne(universe, look, elements); [look] gets the element *)
  Parent_sharedOne : S -> (E -> option E) -> list E -> option E;
  (* PredicateFind.closest(elem, isRoot) *)
  PredicateFind_closest : S -> E -> (E -> bool) -> option E
}.
Arguments Modules E S {U}.

(** Modelled from the spec: the imported modules together with the one
    clause of section 4.4 the development assumes of [Parent.breakPath]:
    the walk ends when [isTop] holds for the current node, so a walk
    whose first node is already a top makes no step: it answers that
    node, no second half, and leaves the tree alone.  [isTop] is called
    with the node alone and its answer is used as a condition. *)
Class Imports (E S : Type) {U : Universe E S} : Type := {
  imports_modules :: Modules E S;
  breakPath_top :
    forall item isTop breaker t,
      truthy (isTop (ArgElement item)) = true ->
      Parent_breakPath item isTop breaker t
      = (Ok {| first := item; second := None |}, t)
}.
Arguments Imports E S {U}.

(* ================================================================== *)
(** * Anteater *)
(* ================================================================== *)

(** [adt]: the two variants of a break result (lines 16-19). *)
Inductive adt (E : Type) : Type :=
| adt_parent (element : E)
| adt_descendant (element : E).

(** [x.fold(onParent, onDescendant)] of a value of [adt]. *)
Definition fold {E R} (x : adt E) (onParent : E -> R) (onDescendant : E -> R) : R :=
  match x with
  | adt_parent e => onParent e
  | adt_descendant e => onDescendant e
  end.

Section Anteater.

Context {E S : Type} {U : Universe E S} {Mo : Modules E S}.

(** The binding of the free identifier [elem] read by the body of [isTop]
    (line 55): no enclosing function declares it, so it is looked up in the
    global scope.  [None]: the global scope has no such binding. *)
Variable global_elem : option E.

(** [breaker] (lines 21-30).  The log line 22 evaluates [parent.dom()]
    and [child.dom()]; on a break, the log line 25 evaluates [b.dom()] and
    [child.dom()], and line 27 prepends [child] to [b]. *)
Definition breaker (parent child : E) : M S (option (handle E)) :=
  dom (HElement parent) ;;;
  dom (HElement child) ;;;
  brk <- Parent_breakAt parent child ;;
  match brk with
  | Some b =>
      dom b ;;;
      dom (HElement child) ;;;
      insert_prepend b child ;;;
      ret brk
  | None => ret brk
  end.

(** The two indices [slice] computes (lines 36-46): [fi] from the first
    marker and [li] from the last one. *)
Definition first_index (children : list E) (first : adt E) : Z :=
  fold first
    (fun _ => 0%Z)
    (fun f => Arr.findIndex children (universe_eq f)).

Definition last_index (children : list E) (last : adt E) : Z :=
  fold last
    (fun _ => Z.of_nat (length children))
    (fun l => (Arr.findIndex children (universe_eq l) + 1)%Z).

(** [slice] (lines 33-51): the direct children of [parent] from the index
    of [first] to the index of [last], both included. *)
Definition slice (t : S) (parent : E) (first last : adt E) : option (list E) :=
  let children := property_children t parent in
  let fi := first_index children first in
  let li := last_index children last in
  if ((fi >? -1) && (li >? -1))%Z
  then Some (Arr.array_slice children fi li)
  else None.

(** The function [isTop] returns (lines 54-65).  Its body reads
    [universe.property().parent(elem)]: the callee is evaluated first (a
    TypeError when [universe] is bound to an element, which has no
    [property]), then the argument [elem], the free identifier. *)
Definition isTop_body (universe : jsarg E) (common : E) : M S bool :=
  match universe with
  | ArgElement _ => throw TypeError
  | ArgUniverse =>
      match global_elem with
      | None => throw ReferenceError
      | Some elem =>
          parent <- gets (fun t => property_parent t elem) ;;
          match parent with
          | None => ret true
          | Some el => ret (universe_eq common el)
          end
      end
  end.

(** [isTop] (lines 53-66): a function of one parameter that returns a
    function. *)
Definition isTop (universe : jsarg E) : jsval E S :=
  JFunction (isTop_body universe).

(** [breakLeft] (lines 69-78). *)
Definition breakLeft (element common : E) : M S (adt E) :=
  if universe_eq common element then ret (adt_parent element)
  else
    breakage <- Parent_breakPath element isTop breaker ;;
    ret (adt_descendant (getOr (second breakage) element)).

(** [breakRight] (lines 80-89).  The log line 81 evaluates
    [element.dom()] twice (the second time to read [parentNode] of the
    node it answers) and [isTop(element)], a function object that is only
    printed. *)
Definition breakRight (element common : E) : M S (adt E) :=
  dom (HElement element) ;;;
  dom (HElement element) ;;;
  if universe_eq common element then ret (adt_parent element)
  else
    breakage <- Parent_breakPath element isTop Parent_breakAt ;;
    ret (adt_descendant (first breakage)).

(** The shared ancestor [fossil] computes first (lines 92-100). *)
Definition shared (t : S) (isRoot : E -> bool) (start finish : E) : option E :=
  match Subset_ancestors_shared t start finish isRoot with
  | None =>
      Parent_sharedOne t
        (fun elem => PredicateFind_closest t elem isRoot)
        [start; finish]
  | Some sh => Some sh
  end.

(** [fossil] (lines 91-114). *)
Definition fossil (isRoot : E -> bool) (start finish : E)
    : M S (option (list E)) :=
  sh <- gets (fun t => shared t isRoot start finish) ;;
  match sh with
  | None => ret None
  | Some common =>
      (* line 104: the log line evaluates common.dom(), start.dom() and
         finish.dom() *)
      dom (HElement common) ;;;
      dom (HElement start) ;;;
      dom (HElement finish) ;;;
      secondBreak <- breakRight finish common ;;
      firstBreak <- breakLeft start common ;;
      gets (fun t => slice t common firstBreak secondBreak)
  end.

End Anteater.

(* ================================================================== *)
(** * A concrete universe: trees of numbered nodes *)
(* ================================================================== *)

(** A host tree whose elements are numbers: every node is listed with its
    children in order.  Several roots may live side by side (disjoint
    trees).  The instances below run the embedding on concrete inputs. *)
Module TestUniverse.

Definition node : Type := nat.

Definition tree : Type := list (node * list node).

Definition children (t : tree) (n : node) : list node :=
  match find (fun e => Nat.eqb (fst e) n) t with
  | Some e => snd e
  | None => []
  end.

Definition parent (t : tree) (n : node) : option node :=
  option_map fst (find (fun e => existsb (Nat.eqb n) (snd e)) t).

(** [prepend(parent, child)]: [child] leaves the place it had and becomes
    the first child of [parent]; a target that is not an element throws. *)
Definition prepend (target : handle node) (child : node) : M tree unit :=
  match target with
  | HLeftRight _ => throw TypeError
  | HElement p =>
      fun t =>
        (Ok tt,
         map (fun e =>
                (fst e,
                 (if Nat.eqb (fst e) p then [child] else [])
                   ++ filter (fun k => negb (Nat.eqb k child)) (snd e)))
             t)
  end.

#[export] Instance universe : Universe node tree := {
  universe_eq := Nat.eqb;
  property_parent := parent;
  property_children := children;
  insert_prepend := prepend
}.

(** Modelled from the spec: Ancestor Path (section 4.2), whose code is not
    part of the sources.  The ancestors of [n], nearest first, [n] itself
    left out, up to and without the first one for which [stop] holds. *)
Fixpoint ancestorsUntil (fuel : nat) (t : tree) (n : node) (stop : node -> bool)
    : list node :=
  match fuel with
  | O => []
  | Datatypes.S fuel' =>
      match parent t n with
      | None => []
      | Some p => if stop p then [] else p :: ancestorsUntil fuel' t p stop
      end
  end.

(** Modelled from the spec: Subset.ancestors(...).shared() (section 4.3,
    steps 1 and 2), whose code is not part of the sources.  The nearest
    node of the chain of [start] (headed by [start]) that the chain of
    [finish] (headed by [finish]) holds too. *)
Definition ancestors_shared (t : tree) (start finish : node)
    (isRoot : node -> bool) : option node :=
  let chain1 := start :: ancestorsUntil (length t) t start isRoot in
  let chain2 := finish :: ancestorsUntil (length t) t finish isRoot in
  find (fun x => existsb (Nat.eqb x) chain2) chain1.

(** Modelled from the spec: PredicateFind.closest(elem, isRoot), whose code
    is not part of the sources.  The nearest node satisfying [isRoot],
    searching upward from [elem], [elem] itself first. *)
Fixpoint closest_from (fuel : nat) (t : tree) (elem : node)
    (isRoot : node -> bool) : option node :=
  if isRoot elem then Some elem
  else
    match fuel with
    | O => None
    | Datatypes.S fuel' =>
        match parent t elem with
        | None => None
        | Some p => closest_from fuel' t p isRoot
        end
    end.

Definition closest (t : tree) (elem : node) (isRoot : node -> bool) : option node :=
  closest_from (length t) t elem isRoot.

(** Modelled from the spec: Parent.sharedOne (section 4.3, step 3), whose
    code is not part of the sources.  The search starts at a reference
    point, the first element: the node [look] finds above it is the answer
    when [look] finds the same node above every other element. *)
Definition sharedOne (t : tree) (look : node -> option node)
    (elements : list node) : option node :=
  match elements with
  | [] => None
  | head :: tail =>
      fold_right
        (fun a acc =>
           match acc with
           | None => None
           | Some s =>
               match look a with
               | Some r => if Nat.eqb s r then Some r else None
               | None => None
               end
           end)
        (look head) tail
  end.

(** A node number no node of [t] has. *)
Definition fresh (t : tree) : node :=
  Datatypes.S (list_max (map fst t ++ flat_map snd t)).

(** Modelled from the spec: Parent.breakAt (section 4.4), whose code is not
    part of the sources.  No break when [child] is the first child of
    [parent] (or is not a child at all).  Otherwise two new shells take the
    place of [parent] among its siblings: the children before [child] go to
    the left one, [child] and the children after it to the right one; the
    answer is the pair of the two. *)
Definition breakAt (parent child : node) : M tree (option (handle node)) :=
  fun t =>
    let kids := children t parent in
    let i := Arr.findIndex kids (Nat.eqb child) in
    if (i <=? 0)%Z then (Ok None, t)
    else
      let l := fresh t in
      let r := Datatypes.S l in
      let rest := filter (fun e => negb (Nat.eqb (fst e) parent)) t in
      let relinked :=
        map (fun e =>
               (fst e,
                flat_map (fun k => if Nat.eqb k parent then [l; r] else [k])
                         (snd e)))
            rest in
      (Ok (Some (HLeftRight {| lr_first := l; lr_second := r |})),
       (l, firstn (Z.to_nat i) kids) :: (r, skipn (Z.to_nat i) kids) :: relinked).

(** Modelled from the spec: Parent.breakPath (section 4.4), whose code is
    not part of the sources.  It walks upward from [item] while
    [isTop(item)] is false, applying the breaker to the parent and the
    current node at each level and going on from the halves of the split
    (the left one as the next node, the right one as the second half); it
    ends when [isTop] holds for the current node, when no parent remains,
    or when the breaker made no split.  A breaker that answers something
    else than a pair makes the read of its halves throw.  The walk is
    bounded by [fuel]. *)
Fixpoint breakPath_next (fuel : nat) (item : node)
    (isTop : jsarg node -> jsval node tree)
    (breaker : node -> node -> M tree (option (handle node)))
    (group : option node) : M tree (brokenPath node) :=
  if truthy (isTop (ArgElement item)) then
    ret {| first := item; second := group |}
  else
    match fuel with
    | O => throw OutOfFuel
    | Datatypes.S fuel' =>
        up <- gets (fun t => parent t item) ;;
        match up with
        | None => ret {| first := item; second := group |}
        | Some p =>
            brk <- breaker p item ;;
            match brk with
            | None => ret {| first := item; second := group |}
            | Some (HLeftRight b) =>
                breakPath_next fuel' (lr_first b) isTop breaker
                               (Some (lr_second b))
            | Some (HElement _) => throw TypeError
            end
        end
    end.

Definition breakPath (item : node) (isTop : jsarg node -> jsval node tree)
    (breaker : node -> node -> M tree (option (handle node)))
    : M tree (brokenPath node) :=
  fun t => breakPath_next (length t) item isTop breaker None t.

(** The sample [breakPath] ends at once on a node that is a top. *)
Lemma breakPath_ends_on_top (item : node)
    (isTop : jsarg node -> jsval node tree)
    (breaker : node -> node -> M tree (option (handle node))) (t : tree) :
  truthy (isTop (ArgElement item)) = true ->
  breakPath item isTop breaker t = (Ok {| first := item; second := None |}, t).
Proof.
  intros Htop; unfold breakPath.
  destruct (length t); simpl; rewrite Htop; reflexivity.
Qed.

Definition modules : Modules node tree := {|
  Parent_breakAt := breakAt;
  Parent_breakPath := breakPath;
  Subset_ancestors_shared := ancestors_shared;
  Parent_sharedOne := sharedOne;
  PredicateFind_closest := closest
|}.

#[export] Instance imports : Imports node tree := {
  imports_modules := modules;
  breakPath_top := breakPath_ends_on_top
}.

(** Modelled from the spec: the predicate section 4.4 describes for
    [isTop], true exactly when the parent of the node is absent or is
    [common].  It is what the runs below compare the source's [isTop]
    with; parents are read in [t]. *)
Definition isTop_of_the_design (t : tree) (common : node) (x : jsarg node)
    : jsval node tree :=
  match x with
  | ArgElement n =>
      JBool match parent t n with
            | None => true
            | Some p => Nat.eqb p common
            end
  | ArgUniverse => JBool false
  end.

(** The leaves below [n], in document order ([n] itself when it has no
    child). *)
Fixpoint leaves (fuel : nat) (t : tree) (n : node) : list node :=
  match fuel with
  | O => []
  | Datatypes.S fuel' =>
      match children t n with
      | [] => [n]
      | kids => flat_map (leaves fuel' t) kids
      end
  end.

(** The nodes below and including [n] in document order (preorder). *)
Fixpoint preorder (fuel : nat) (t : tree) (n : node) : list node :=
  match fuel with
  | O => []
  | Datatypes.S fuel' => n :: flat_map (preorder fuel' t) (children t n)
  end.

(** The prefix of [ys] that ends with the first [b]; [None] when [b] does
    not occur. *)
Fixpoint upto (b : node) (ys : list node) : option (list node) :=
  match ys with
  | [] => None
  | y :: more =>
      if Nat.eqb y b then Some [y] else option_map (cons y) (upto b more)
  end.

(** The part of [xs] from the first [a] to the first [b] at or after it,
    both included; [[]] when [a] does not occur or no [b] follows. *)
Fixpoint from_to (a b : node) (xs : list node) : list node :=
  match xs with
  | [] => []
  | x :: rest =>
      if Nat.eqb x a then getOr (upto b xs) [] else from_to a b rest
  end.

(** The leaves of the tree under [root] that lie between the leaves
    [start] and [finish], both included, in document order. *)
Definition leaves_between (t : tree) (root start finish : node) : list node :=
  from_to start finish (leaves (length t) t root).

(** [a] comes strictly before [b] in the document order under [root]. *)
Definition precedes (t : tree) (root a b : node) : bool :=
  let order := preorder (length t) t root in
  let ia := Arr.findIndex order (Nat.eqb a) in
  let ib := Arr.findIndex order (Nat.eqb b) in
  ((-1 <? ia) && (ia <? ib))%Z.

(** ** Sample documents *)

(** [R(0)[ s(1), B(2)[ f(3), g(4) ] ]]: the finish side is nested. *)
Definition nested_finish : tree :=
  [(0, [1; 2]); (1, []); (2, [3; 4]); (3, []); (4, [])].

(** [R(0)[ A(1)[ s(2) ], f(3) ]]: the start side is nested. *)
Definition nested_start : tree :=
  [(0, [1; 3]); (1, [2]); (2, []); (3, [])].

(** [R(0)[ a(1), b(2) ]]: two siblings. *)
Definition siblings : tree :=
  [(0, [1; 2]); (1, []); (2, [])].

(** [R(0)[ a(1) ]] beside [Q(5)[ b(6) ]]: two disjoint trees. *)
Definition disjoint : tree :=
  [(0, [1]); (1, []); (5, [6]); (6, [])].

(** [R(0)[ A(1)[ x(3), s(4) ], B(2)[ f(5), y(6) ] ]]: both sides need a
    break to reach the common ancestor. *)
Definition both_nested : tree :=
  [(0, [1; 2]); (1, [3; 4]); (2, [5; 6]); (3, []); (4, []); (5, []); (6, [])].

(** [R(0)[ s(1), B(2)[ f(3) ] ]]: start is the first child of its parent
    and finish the last child of its own. *)
Definition edge_children : tree :=
  [(0, [1; 2]); (1, []); (2, [3]); (3, [])].

(** [P(0)[ a(1), b(2), c(3), d(4) ]]: four siblings. *)
Definition family : tree :=
  [(0, [1; 2; 3; 4]); (1, []); (2, []); (3, []); (4, [])].

(** A root predicate that holds for no node: the ancestor chains run up
    to the top of the document. *)
Definition no_root (n : node) : bool := false.

End TestUniverse.

(* ================================================================== *)
(** * A universe that records the walks it is asked for *)
(* ================================================================== *)

(** The trees of [TestUniverse] beside a record of the nodes from which
    [Parent.breakPath] was asked to walk, in the order of the calls.  Its
    [breakPath] is a stand-in that makes no break: it writes the node down
    and answers it.  It tells in which order a caller asks for its two
    walks, and on which state each one runs. *)
Module SpyUniverse.

Import TestUniverse.

Definition state : Type := (tree * list node)%type.

(** A computation on the tree, run on the tree of a state. *)
Definition lift {A} (m : M tree A) : M state A :=
  fun st => let (r, t') := m (fst st) in (r, (t', snd st)).

Definition spy_universe : Universe node state := {|
  universe_eq := Nat.eqb;
  property_parent := fun st => parent (fst st);
  property_children := fun st => children (fst st);
  insert_prepend := fun target child => lift (prepend target child)
|}.

Definition breakPath (item : node) (isTop : jsarg node -> jsval node state)
    (breaker : node -> node -> M state (option (handle node)))
    : M state (brokenPath node) :=
  fun st =>
    (Ok {| first := item; second := None |}, (fst st, snd st ++ [item])).

Definition spy_modules : Modules node state (U := spy_universe) := {|
  Parent_breakAt := fun parent child => lift (breakAt parent child);
  Parent_breakPath := breakPath;
  Subset_ancestors_shared := fun st => ancestors_shared (fst st);
  Parent_sharedOne := fun st => sharedOne (fst st);
  PredicateFind_closest := fun st => closest (fst st)
|}.

End SpyUniverse.

(* ================================================================== *)
(** * setContentInternal *)
(* ================================================================== *)

Module SetContent.

Open Scope string_scope.

(** [s.toLowerCase()] on the letters A-Z. *)
Definition lower_ascii (c : ascii) : ascii :=
  let n := nat_of_ascii c in
  if (Nat.leb 65 n && Nat.leb n 90)%bool then ascii_of_nat (n + 32) else c.

Fixpoint toLowerCase (s : string) : string :=
  match s with
  | EmptyString => EmptyString
  | String c rest => String (lower_ascii c) (toLowerCase rest)
  end.

(** The class [\s] of a regular expression, on code units below 256. *)
Definition is_space (c : ascii) : bool :=
  let n := nat_of_ascii c in
  (Nat.leb 9 n && Nat.leb n 13)%bool || Nat.eqb n 32 || Nat.eqb n 160.

Fixpoint all_space (s : string) : bool :=
  match s with
  | EmptyString => true
  | String c rest => is_space c && all_space rest
  end.

(** [/^\s+$/.test(s)]. *)
Definition only_whitespace (s : string) : bool :=
  negb (String.eqb s "") && all_space s.

(** [/^(UL|OL)$/.test(s)]. *)
Definition is_list_name (s : string) : bool :=
  String.eqb s "UL" || String.eqb s "OL".

Definition quote : string := String (ascii_of_nat 34) EmptyString.

(** The literal of lines 60 and 78: a bogus line break. *)
Definition padd : string := "<br data-mce-bogus=" ++ quote ++ "1" ++ quote ++ ">".

Definition defaultFormat : string := "html".

(** [Content]: a string or a parsed tree ([AstNode]). *)
Inductive Content (AstNode : Type) : Type :=
| CString (s : string)
| CTree (n : AstNode).
Arguments CString {AstNode} s.

(** [SetContentArgs], and [Partial<SetContentArgs>] as the caller gives it. *)
Record SetContentArgs : Type := {
  args_format : string;
  args_set : bool;
  args_content : string;
  args_no_events : option bool;
  args_no_selection : option bool
}.

Record PartialArgs : Type := {
  p_format : option string;
  p_set : option bool;
  p_content : option string;
  p_no_events : option bool;
  p_no_selection : option bool
}.

Record SetContentResult (AstNode : Type) : Type := {
  content : Content AstNode;
  html : string
}.

(** The two kinds of value [setEditorHtml] writes: a string or a DOM node. *)
Inductive Html (Node : Type) : Type :=
| HString (s : string)
| HNode (n : Node).
Arguments HString {Node} s.

(** The editor and the modules the file imports, over the editor's state
    [Ed], DOM nodes, nodes of the parsed tree, caret positions, ranges and
    attribute sets.  Each operation reads or rewrites the editor's state.
    [preProcessSetContent] and [postProcessSetContent] are the two hooks of
    PrePostProcess around the write; the first may answer no arguments. *)
Class Editor (Ed Node AstNode CaretPosition Range Attrs : Type) : Type := {
  getBody : Ed -> option Node;
  nodeName : Node -> string;
  dom_setHTML : option Node -> string -> Ed -> Ed;
  dom_createHTML : Ed -> string -> Attrs -> string -> string;
  Remove_empty : option Node -> Ed -> Ed;
  appendChild : option Node -> Node -> Ed -> Ed;
  EditorFocus_hasFocus : Ed -> bool;
  CaretFinder_firstPositionIn : Ed -> option Node -> option CaretPosition;
  getNode : CaretPosition -> Node;
  toRange : CaretPosition -> Range;
  NodeType_isTable : Node -> bool;
  selection_setRng : Range -> Ed -> Ed;
  Settings_getForcedRootBlock : Ed -> string;
  Settings_getForcedRootBlockAttrs : Ed -> Attrs;
  schema_isValidChild : Ed -> string -> string -> bool;
  parser_parse : Ed -> string -> Node;
  FilterNode_filter : AstNode -> Ed -> Ed;
  HtmlSerializer_serialize : Ed -> AstNode -> string;
  isWsPreserveElement : Node -> bool;
  Tools_trim : string -> string;
  preProcessSetContent : SetContentArgs -> Ed -> option SetContentArgs * Ed;
  postProcessSetContent : string -> SetContentArgs -> Ed -> Ed
}.

Section SetContentInternal.

Context {Ed Node AstNode CaretPosition Range Attrs : Type}
        {editor : Editor Ed Node AstNode CaretPosition Range Attrs}.

Definition isTreeNode (c : Content AstNode) : bool :=
  match c with
  | CTree _ => true
  | CString _ => false
  end.

(** [moveSelection] (lines 34-42). *)
Definition moveSelection (ed : Ed) : Ed :=
  if EditorFocus_hasFocus ed then
    match CaretFinder_firstPositionIn ed (getBody ed) with
    | Some pos =>
        let node := getNode pos in
        let caretPos :=
          if NodeType_isTable node
          then getOr (CaretFinder_firstPositionIn ed (Some node)) pos
          else pos in
        selection_setRng (toRange caretPos) ed
    | None => ed
    end
  else ed.

(** [setEditorHtml] (lines 44-54). *)
Definition setEditorHtml (h : Html Node) (noSelection : option bool) (ed : Ed) : Ed :=
  let ed1 :=
    match h with
    | HString s => dom_setHTML (getBody ed) s ed
    | HNode n =>
        let ed' := Remove_empty (getBody ed) ed in
        appendChild (getBody ed') n ed'
    end in
  match noSelection with
  | Some true => ed1
  | _ => moveSelection ed1
  end.

(** [setContentString] (lines 56-92). *)
Definition setContentString (body : Node) (c : string) (args : SetContentArgs)
    (ed : Ed) : SetContentResult AstNode * Ed :=
  if (Nat.eqb (String.length c) 0 || only_whitespace c)%bool then
    let c1 :=
      if String.eqb (nodeName body) "TABLE" then "<tr><td>" ++ padd ++ "</td></tr>"
      else if is_list_name (nodeName body) then "<li>" ++ padd ++ "</li>"
      else c in
    let forcedRootBlockName := Settings_getForcedRootBlock ed in
    let c2 :=
      if (negb (String.eqb forcedRootBlockName "")
          && schema_isValidChild ed (toLowerCase (nodeName body))
               (toLowerCase forcedRootBlockName))%bool
      then dom_createHTML ed forcedRootBlockName
             (Settings_getForcedRootBlockAttrs ed) padd
      else if String.eqb c1 "" then padd
      else c1 in
    ({| content := CString c2; html := c2 |},
     setEditorHtml (HString c2) (args_no_selection args) ed)
  else
    let fragment := parser_parse ed c in
    ({| content := CString c; html := c |},
     setEditorHtml (HNode fragment) (args_no_selection args) ed).

(** [setContentTree] (lines 94-103). *)
Definition setContentTree (body : Node) (c : AstNode) (args : SetContentArgs)
    (ed : Ed) : SetContentResult AstNode * Ed :=
  let ed1 := FilterNode_filter c ed in
  let h := HtmlSerializer_serialize ed1 c in
  let trimmedHtml := if isWsPreserveElement body then h else Tools_trim h in
  ({| content := CTree c; html := trimmedHtml |},
   setEditorHtml (HString trimmedHtml) (args_no_selection args) ed1).

(** [setupArgs] (lines 105-110). *)
Definition setupArgs (args : PartialArgs) (c : Content AstNode) : SetContentArgs :=
  {| args_format := getOr (p_format args) defaultFormat;
     args_set := true;
     args_content := match c with CTree _ => "" | CString s => s end;
     args_no_events := p_no_events args;
     args_no_selection := p_no_selection args |}.

(** [setContentInternal] (lines 112-129). *)
Definition setContentInternal (c : Content AstNode) (args : PartialArgs) (ed : Ed)
    : Content AstNode * Ed :=
  let defaultedArgs := setupArgs args c in
  match preProcessSetContent defaultedArgs ed with
  | (Some updatedArgs, ed1) =>
      let updatedContent :=
        if isTreeNode c then c else CString (args_content updatedArgs) in
      let '(result, ed2) :=
        match getBody ed1 with
        | Some body =>
            match updatedContent with
            | CTree n => setContentTree body n updatedArgs ed1
            | CString s => setContentString body s updatedArgs ed1
            end
        | None => ({| content := c; html := args_content updatedArgs |}, ed1)
        end in
      (content result, postProcessSetContent (html result) updatedArgs ed2)
  | (None, ed1) => (c, ed1)
  end.

End SetContentInternal.

End SetContent.

(* ================================================================== *)
(** * A concrete editor *)
(* ================================================================== *)

(** An editor that records what is done to it: the writes to its document
    and the events its hooks fire.  It instantiates the parameters of
    [SetContent] where a statement is run on a concrete call. *)
Module TestEditor.

Import SetContent.

Inductive event : Type :=
| SetHTML (s : string)
| Emptied
| Appended (n : nat)
| RangeSet
| Filtered
| BeforeSetContent
| SetContentFired (html : string).

Record editor : Type := {
  body : option nat;
  prevented : bool;     (* a BeforeSetContent handler prevents the default *)
  log : list event
}.

Definition record (e : event) (ed : editor) : editor :=
  {| body := body ed; prevented := prevented ed; log := log ed ++ [e] |}.

Definition args : Type := SetContentArgs.

(** The pre-processing hook: fires BeforeSetContent unless [no_events] is
    set, and answers nothing when a handler prevented the default. *)
Definition preProcess (a : args) (ed : editor) : option args * editor :=
  match args_no_events a with
  | Some true => (Some a, ed)
  | _ =>
      if prevented ed then (None, record BeforeSetContent ed)
      else (Some a, record BeforeSetContent ed)
  end.

Definition postProcess (h : string) (a : args) (ed : editor) : editor :=
  match args_no_events a with
  | Some true => ed
  | _ => record (SetContentFired h) ed
  end.

(** The recording editor as an [Editor]: DOM nodes, tree nodes, caret
    positions and ranges are numbers. *)
#[export] Instance recording : Editor editor nat nat nat nat unit := {
  getBody := body;
  nodeName := fun _ => "BODY"%string;
  dom_setHTML := fun _ s => record (SetHTML s);
  dom_createHTML := fun _ name _ inner =>
    ("<" ++ name ++ ">" ++ inner ++ "</" ++ name ++ ">")%string;
  Remove_empty := fun _ => record Emptied;
  appendChild := fun _ n => record (Appended n);
  EditorFocus_hasFocus := fun _ => false;
  CaretFinder_firstPositionIn := fun _ _ => None;
  getNode := fun p => p;
  toRange := fun p => p;
  NodeType_isTable := fun _ => false;
  selection_setRng := fun _ => record RangeSet;
  Settings_getForcedRootBlock := fun _ => "p"%string;
  Settings_getForcedRootBlockAttrs := fun _ => tt;
  schema_isValidChild := fun _ _ _ => true;
  parser_parse := fun _ _ => 0;
  FilterNode_filter := fun _ => record Filtered;
  HtmlSerializer_serialize := fun _ _ => "<p>tree</p>"%string;
  isWsPreserveElement := fun _ => false;
  Tools_trim := fun s => s;
  preProcessSetContent := preProcess;
  postProcessSetContent := postProcess
}.

(** The recording editor with another forced root block: [block] is its
    name (empty when the setting is off) and [valid] tells whether the
    schema accepts it as a child of the body. *)
Definition recording_with (block : string) (valid : bool)
    : Editor editor nat nat nat nat unit := {|
  getBody := body;
  nodeName := fun _ => "BODY"%string;
  dom_setHTML := fun _ s => record (SetHTML s);
  dom_createHTML := fun _ name _ inner =>
    ("<" ++ name ++ ">" ++ inner ++ "</" ++ name ++ ">")%string;
  Remove_empty := fun _ => record Emptied;
  appendChild := fun _ n => record (Appended n);
  EditorFocus_hasFocus := fun _ => false;
  CaretFinder_firstPositionIn := fun _ _ => None;
  getNode := fun p => p;
  toRange := fun p => p;
  NodeType_isTable := fun _ => false;
  selection_setRng := fun _ => record RangeSet;
  Settings_getForcedRootBlock := fun _ => block;
  Settings_getForcedRootBlockAttrs := fun _ => tt;
  schema_isValidChild := fun _ _ _ => valid;
  parser_parse := fun _ _ => 0;
  FilterNode_filter := fun _ => record Filtered;
  HtmlSerializer_serialize := fun _ _ => "<p>tree</p>"%string;
  isWsPreserveElement := fun _ => false;
  Tools_trim := fun s => s;
  preProcessSetContent := preProcess;
  postProcessSetContent := postProcess
|}.

(** An editor with a body, no handler that vetoes, nothing logged yet. *)
Definition ready : editor := {| body := Some 3; prevented := false; log := [] |}.

Definition plain : PartialArgs :=
  {| p_format := None; p_set := None; p_content := None;
     p_no_events := None; p_no_selection := None |}.

(** An editor whose body is gone (it was removed), and one whose
    BeforeSetContent handler vetoes the call. *)
Definition bodiless : editor := {| body := None; prevented := false; log := [] |}.

Definition vetoing : editor := {| body := Some 7; prevented := true; log := [] |}.

End TestEditor.

(* ================================================================== *)
(** * Image tools: where the blob of an image comes from *)
(* ================================================================== *)

(** The functions of the image tools' Actions module that decide, without
    waiting for anything, how an image is turned into a blob: [createId],
    [isLocalImage], [isCorsImage], [isCorsWithCredentialsImage],
    [isEditableImage], [imageToBlob], [getSelectedImage] and
    [findSelectedBlob]. *)
Module ImageTools.

Open Scope string_scope.

(** [s.indexOf(pat)]: the position of the first occurrence of [pat] in
    [s], -1 when there is none. *)
Definition indexOf (s pat : string) : Z :=
  match String.index 0 pat s with
  | Some n => Z.of_nat n
  | None => (-1)%Z
  end.

(** ['imagetools' + count++] (lines 23 and 50-52): the identifier made
    from the module's counter and the counter after the call.  A number is
    appended in decimal; the counter is exact below 2^53. *)
Definition createId (count : N) : string * N :=
  ("imagetools" ++ NilEmpty.string_of_uint (N.to_uint count), (count + 1)%N).

(** The promise [imageToBlob] and [findSelectedBlob] return, told by the
    call that made it: [Proxy.getUrl(url, apiKey, withCredentials)] (with
    [None] for the key [null]), [BlobConversions.imageToBlob(img)], or
    [Promise.resolve(blob)]. *)
Inductive blobSource (Img Blob Key : Type) : Type :=
| ProxyGetUrl (url : string) (apiKey : option Key) (withCredentials : bool)
| ImageToBlob (img : Img)
| Resolved (blob : Blob).
Arguments ProxyGetUrl {Img Blob Key} url apiKey withCredentials.
Arguments ImageToBlob {Img Blob Key} img.
Arguments Resolved {Img Blob Key} blob.

(** The editor, its settings and the imported modules, as the functions
    read them.  [dom_is] is the test of the selector
    [img:not([data-mce-object],[data-mce-placeholder])];
    [settings_imagetools_proxy] tells whether the setting
    [imagetools_proxy] is a true value; [URI_host url] is
    [new URI(url).host]. *)
Class Host (Ed Img Blob BlobInfo Key : Type) : Type := {
  dom_is : Ed -> Img -> bool;
  src : Img -> string;
  URI_host : string -> string;
  documentBaseURI_host : Ed -> string;
  Settings_getCorsHosts : Ed -> list string;
  Settings_getCredentialsHosts : Ed -> list string;
  Settings_getProxyUrl : Ed -> string;
  Settings_getApiKey : Ed -> Key;
  settings_imagetools_proxy : Ed -> bool;
  Tools_inArray : list string -> string -> Z;
  encodeURIComponent : string -> string;
  selection_getNode : Ed -> Img;
  blobCache_getByUri : Ed -> string -> option BlobInfo;
  blobInfo_blob : BlobInfo -> Blob
}.

Section Actions.

Context {Ed Img Blob BlobInfo Key : Type} {host : Host Ed Img Blob BlobInfo Key}.

(** [getSelectedImage] (lines 38-40). *)
Definition getSelectedImage (ed : Ed) : Img := selection_getNode ed.

(** [isLocalImage] (lines 54-58). *)
Definition isLocalImage (ed : Ed) (img : Img) : bool :=
  let url := src img in
  (indexOf url "data:" =? 0)%Z
  || (indexOf url "blob:" =? 0)%Z
  || String.eqb (URI_host url) (documentBaseURI_host ed).

(** [isCorsImage] (lines 60-62). *)
Definition isCorsImage (ed : Ed) (img : Img) : bool :=
  negb (Tools_inArray (Settings_getCorsHosts ed) (URI_host (src img)) =? -1)%Z.

(** [isCorsWithCredentialsImage] (lines 64-66). *)
Definition isCorsWithCredentialsImage (ed : Ed) (img : Img) : bool :=
  negb (Tools_inArray (Settings_getCredentialsHosts ed) (URI_host (src img)) =? -1)%Z.

(** [isEditableImage] (lines 25-29), as the condition its callers use. *)
Definition isEditableImage (ed : Ed) (img : Img) : bool :=
  let selectorMatched := dom_is ed img in
  selectorMatched
  && (isLocalImage ed img || isCorsImage ed img || settings_imagetools_proxy ed).

(** [imageToBlob] (lines 68-83). *)
Definition imageToBlob (ed : Ed) (img : Img) : blobSource Img Blob Key :=
  if isCorsImage ed img then
    ProxyGetUrl (src img) None (isCorsWithCredentialsImage ed img)
  else if negb (isLocalImage ed img) then
    let src0 := Settings_getProxyUrl ed in
    let src1 :=
      src0 ++ ((if (indexOf src0 "?" =? -1)%Z then "?" else "&") ++ "url=")
           ++ encodeURIComponent (src img) in
    let apiKey := Settings_getApiKey ed in
    ProxyGetUrl src1 (Some apiKey) false
  else ImageToBlob img.

(** [findSelectedBlob] (lines 85-93). *)
Definition findSelectedBlob (ed : Ed) : blobSource Img Blob Key :=
  match blobCache_getByUri ed (src (getSelectedImage ed)) with
  | Some blobInfo => Resolved (blobInfo_blob blobInfo)
  | None => imageToBlob ed (getSelectedImage ed)
  end.

End Actions.

(** A host for concrete runs: images are their URLs, the host of a URL is
    looked up in a small table, the blob cache is a list. *)
Record testEditor : Type := {
  base_host : string;
  cors_hosts : list string;
  credentials_hosts : list string;
  proxy_url : string;
  proxy_set : bool;
  selected : string;
  cache : list (string * nat)
}.

Definition host_of (url : string) : string :=
  if String.prefix "http://cdn.example/" url then "cdn.example"
  else if String.prefix "http://far.example/" url then "far.example"
  else if String.prefix "http://here.example/" url then "here.example"
  else "".

Fixpoint inArray (a : list string) (v : string) (i : Z) : Z :=
  match a with
  | [] => (-1)%Z
  | x :: rest => if String.eqb x v then i else inArray rest v (i + 1)%Z
  end.

#[export] Instance testHost : Host testEditor string nat nat string := {
  dom_is := fun _ _ => true;
  src := fun img => img;
  URI_host := host_of;
  documentBaseURI_host := base_host;
  Settings_getCorsHosts := cors_hosts;
  Settings_getCredentialsHosts := credentials_hosts;
  Settings_getProxyUrl := proxy_url;
  Settings_getApiKey := fun _ => "key";
  settings_imagetools_proxy := proxy_set;
  Tools_inArray := fun a v => inArray a v 0%Z;
  encodeURIComponent := fun s => s;
  selection_getNode := selected;
  blobCache_getByUri := fun ed uri =>
    option_map snd (find (fun e => String.eqb (fst e) uri) (cache ed));
  blobInfo_blob := fun b => b
}.

(** An editor at [here.example] with one CORS host, no proxy, and one
    cached image. *)
Definition here : testEditor :=
  {| base_host := "here.example";
     cors_hosts := ["cdn.example"];
     credentials_hosts := [];
     proxy_url := "";
     proxy_set := false;
     selected := "http://here.example/cat.png";
     cache := [("http://here.example/cat.png", 42)] |}.

(** The same editor when its CORS host is also a credentials host. *)
Definition trusting : testEditor :=
  {| base_host := "here.example";
     cors_hosts := ["cdn.example"];
     credentials_hosts := ["cdn.example"];
     proxy_url := "";
     proxy_set := false;
     selected := "http://cdn.example/bird.png";
     cache := [] |}.

(** The same editor with a proxy service and a remote image selected. *)
Definition proxied : testEditor :=
  {| base_host := "here.example";
     cors_hosts := ["cdn.example"];
     credentials_hosts := [];
     proxy_url := "http://proxy.example/get?v=1";
     proxy_set := true;
     selected := "http://far.example/dog.png";
     cache := [] |}.

End ImageTools.

(* ================================================================== *)
(** * Properties of the array helpers *)
(* ================================================================== *)

Module ArrFacts.

Import Arr.
Open Scope Z_scope.

Lemma findIndex_from_range {A} (pred : A -> bool) (xs : list A) (i : Z) :
  findIndex_from i xs pred = -1 \/
  i <= findIndex_from i xs pred < i + Z.of_nat (length xs).
Proof.
  revert i; induction xs as [|x rest IH]; intros i; simpl.
  - now left.
  - destruct (pred x).
    + right; lia.
    + destruct (IH (i + 1)) as [Hn | Hr]; [now left | right; lia].
Qed.

Lemma findIndex_range {A} (pred : A -> bool) (xs : list A) :
  findIndex xs pred = -1 \/ 0 <= findIndex xs pred < Z.of_nat (length xs).
Proof.
  unfold findIndex.
  destruct (findIndex_from_range pred xs 0) as [H | H]; [now left | right; lia].
Qed.

(** The index is -1 exactly when no element satisfies the predicate. *)
Lemma findIndex_from_none {A} (pred : A -> bool) (xs : list A) (i : Z) :
  0 <= i -> (findIndex_from i xs pred = -1 <-> existsb pred xs = false).
Proof.
  revert i; induction xs as [|x rest IH]; intros i Hi; simpl.
  - tauto.
  - destruct (pred x); simpl.
    + split; intros H; [lia | discriminate].
    + apply IH; lia.
Qed.

Lemma findIndex_none {A} (pred : A -> bool) (xs : list A) :
  findIndex xs pred = -1 <-> existsb pred xs = false.
Proof. apply findIndex_from_none; lia. Qed.

(** With both bounds inside the array, [slice] keeps [stop - start]
    elements from position [start]. *)
Lemma array_slice_inside {A} (xs : list A) (start stop : Z) :
  0 <= start <= Z.of_nat (length xs) ->
  0 <= stop <= Z.of_nat (length xs) ->
  array_slice xs start stop =
  firstn (Z.to_nat (stop - start)) (skipn (Z.to_nat start) xs).
Proof.
  intros Hs Hp; unfold array_slice.
  destruct (Z.ltb_spec start 0); [lia|].
  destruct (Z.ltb_spec stop 0); [lia|].
  rewrite !Z.min_l by lia; reflexivity.
Qed.

Lemma array_slice_all {A} (xs : list A) :
  array_slice xs 0 (Z.of_nat (length xs)) = xs.
Proof.
  rewrite array_slice_inside by lia.
  rewrite Z.sub_0_r, Nat2Z.id; simpl.
  apply firstn_all.
Qed.

Lemma array_slice_from_start {A} (xs : list A) (stop : Z) :
  0 <= stop <= Z.of_nat (length xs) ->
  array_slice xs 0 stop = firstn (Z.to_nat stop) xs.
Proof.
  intros H; rewrite array_slice_inside by lia.
  now rewrite Z.sub_0_r.
Qed.

Lemma array_slice_to_end {A} (xs : list A) (start : Z) :
  0 <= start <= Z.of_nat (length xs) ->
  array_slice xs start (Z.of_nat (length xs)) = skipn (Z.to_nat start) xs.
Proof.
  intros H; rewrite array_slice_inside by lia.
  apply firstn_all2.
  rewrite length_skipn; lia.
Qed.

(** An end that is not past the start leaves nothing. *)
Lemma array_slice_empty {A} (xs : list A) (start stop : Z) :
  0 <= stop <= start -> array_slice xs start stop = [].
Proof.
  intros H; unfold array_slice.
  destruct (Z.ltb_spec start 0); [lia|].
  destruct (Z.ltb_spec stop 0); [lia|].
  replace (Z.to_nat (Z.min stop (Z.of_nat (length xs))
                     - Z.min start (Z.of_nat (length xs)))) with 0%nat by lia.
  reflexivity.
Qed.

End ArrFacts.

(* ================================================================== *)
(** * Properties of Anteater, for every universe *)
(* ================================================================== *)

Section AnteaterFacts.

Context {E S : Type} {U : Universe E S} {I : Imports E S}.

Variable global_elem : option E.

(** Applied to one argument, [isTop] answers a function object, which
    counts as true in a condition. *)
Lemma isTop_truthy (x : jsarg E) : truthy (isTop (S := S) global_elem x) = true.
Proof. reflexivity. Qed.

(** Hence [Parent.breakPath] stops at the node it starts from: no breaker
    call, no change of the tree. *)
Lemma breakPath_stops_at_once (item : E)
    (brk : E -> E -> M S (option (handle E))) (t : S) :
  Parent_breakPath item (isTop global_elem) brk t
  = (Ok {| first := item; second := None |}, t).
Proof. apply breakPath_top, isTop_truthy. Qed.

Lemma breakLeft_run (element common : E) (t : S) :
  breakLeft global_elem element common t
  = (Ok (if universe_eq common element
         then adt_parent element else adt_descendant element), t).
Proof.
  unfold breakLeft.
  destruct (universe_eq common element); [reflexivity|].
  unfold bind; rewrite breakPath_stops_at_once; reflexivity.
Qed.

Lemma breakRight_run (element common : E) (t : S) :
  breakRight global_elem element common t
  = (Ok (if universe_eq common element
         then adt_parent element else adt_descendant element), t).
Proof.
  unfold breakRight, bind; cbn [dom ret].
  destruct (universe_eq common element); [reflexivity|].
  rewrite breakPath_stops_at_once; reflexivity.
Qed.

(** As the code stands, the finish-side break leaves the children of
    every node, hence every child index the start side reads, as they
    were. *)
Lemma breakRight_keeps_the_children (element common n : E) (t : S) :
  property_children (snd (breakRight global_elem element common t)) n
  = property_children t n.
Proof. rewrite breakRight_run; reflexivity. Qed.

(** What a run of [fossil] amounts to. *)
Lemma fossil_run (isRoot : E -> bool) (start finish : E) (t : S) :
  fossil global_elem isRoot start finish t
  = (Ok match shared t isRoot start finish with
        | None => None
        | Some common =>
            slice t common
              (if universe_eq common start
               then adt_parent start else adt_descendant start)
              (if universe_eq common finish
               then adt_parent finish else adt_descendant finish)
        end, t).
Proof.
  unfold fossil, bind, gets.
  destruct (shared t isRoot start finish) as [common|]; [|reflexivity].
  cbn [dom ret].
  rewrite breakRight_run, breakLeft_run; reflexivity.
Qed.

(** [li] is never negative, so the test [li > -1] of [slice] always
    passes. *)
Lemma last_index_nonneg (children : list E) (last : adt E) :
  (0 <= last_index children last <= Z.of_nat (length children))%Z.
Proof.
  destruct last as [e|e]; simpl.
  - lia.
  - destruct (ArrFacts.findIndex_range (universe_eq e) children); lia.
Qed.

Lemma first_index_range (children : list E) (first : adt E) :
  (first_index children first = -1
   \/ 0 <= first_index children first <= Z.of_nat (length children))%Z.
Proof.
  destruct first as [e|e]; simpl.
  - right; lia.
  - destruct (ArrFacts.findIndex_range (universe_eq e) children); [now left | right; lia].
Qed.

(** [slice] answers nothing exactly when the first marker is a descendant
    that is not among the children. *)
Lemma slice_none (t : S) (parent : E) (first last : adt E) :
  slice t parent first last = None <->
  exists f, first = adt_descendant f /\
            Arr.findIndex (property_children t parent) (universe_eq f) = (-1)%Z.
Proof.
  unfold slice.
  pose proof (last_index_nonneg (property_children t parent) last) as Hl.
  pose proof (first_index_range (property_children t parent) first) as Hf.
  destruct (Z.gtb_spec (last_index (property_children t parent) last) (-1)); [|lia].
  destruct (Z.gtb_spec (first_index (property_children t parent) first) (-1)); simpl.
  - split; [discriminate|].
    intros (f & -> & Hm); simpl in *; lia.
  - split; [intros _ | reflexivity].
    destruct first as [e|e]; simpl in *; [lia|].
    exists e; split; [reflexivity | lia].
Qed.

End AnteaterFacts.

Section AnteaterOrder.

Context {E S : Type} {U : Universe E S} {Mo : Modules E S}.

Variable global_elem : option E.

(** C2: in every run of [fossil] that found the common ancestor, whatever
    [Parent.breakPath] and [Parent.breakAt] do to the tree, the
    finish-side break ([breakRight]) runs first, on the tree as [fossil]
    received it, and the start-side break ([breakLeft]) runs second, on the
    tree the finish-side break leftPath; the slice is read from the tree the
    start-side break leftPath, which is the final tree.  When neither boundary
    is the common ancestor, the finish-side break is the walk of
    [Parent.breakPath] from [finish] with [Parent.breakAt], the start-side
    break is the walk from [start] with [breaker], made on the tree the
    first walk leftPath, and a finish-side walk that throws ends the run
    before the start side is touched. *)
Theorem fossil_breaks_finish_side_first (isRoot : E -> bool)
    (start finish common : E) (t : S) :
  shared t isRoot start finish = Some common ->
  fossil global_elem isRoot start finish t
  = match breakRight global_elem finish common t with
    | (Throw e, t1) => (Throw e, t1)
    | (Ok secondBreak, t1) =>
        match breakLeft global_elem start common t1 with
        | (Throw e, t2) => (Throw e, t2)
        | (Ok firstBreak, t2) =>
            (Ok (slice t2 common firstBreak secondBreak), t2)
        end
    end
  /\ (universe_eq common finish = false ->
      universe_eq common start = false ->
      (forall e t1,
         Parent_breakPath finish (isTop global_elem) Parent_breakAt t
         = (Throw e, t1) ->
         fossil global_elem isRoot start finish t = (Throw e, t1))
      /\ (forall rightPath t1,
            Parent_breakPath finish (isTop global_elem) Parent_breakAt t
            = (Ok rightPath, t1) ->
            (forall e t2,
               Parent_breakPath start (isTop global_elem) breaker t1
               = (Throw e, t2) ->
               fossil global_elem isRoot start finish t = (Throw e, t2))
            /\ (forall leftPath t2,
                  Parent_breakPath start (isTop global_elem) breaker t1
                  = (Ok leftPath, t2) ->
                  fossil global_elem isRoot start finish t
                  = (Ok (slice t2 common
                           (adt_descendant (getOr (second leftPath) start))
                           (adt_descendant (first rightPath))), t2)))).
Proof.
  intros Hshared.
  split.
  - unfold fossil, bind, gets; rewrite Hshared; cbn [dom ret].
    destruct (breakRight global_elem finish common t) as [[sb|e] t1];
      [|reflexivity].
    destruct (breakLeft global_elem start common t1) as [[fb|e] t2];
      reflexivity.
  - intros Hf Hs.
    assert (Hfossil :
      fossil global_elem isRoot start finish t
      = match Parent_breakPath finish (isTop global_elem) Parent_breakAt t with
        | (Throw e, t1) => (Throw e, t1)
        | (Ok rightPath, t1) =>
            match Parent_breakPath start (isTop global_elem) breaker t1 with
            | (Throw e, t2) => (Throw e, t2)
            | (Ok leftPath, t2) =>
                (Ok (slice t2 common
                       (adt_descendant (getOr (second leftPath) start))
                       (adt_descendant (first rightPath))), t2)
            end
        end).
    { unfold fossil, breakRight, breakLeft, bind, gets.
      rewrite Hshared; cbn [dom ret]; rewrite Hf, Hs.
      destruct (Parent_breakPath finish (isTop global_elem) Parent_breakAt t)
        as [[rightPath|e] t1]; [|reflexivity].
      cbn [ret].
      destruct (Parent_breakPath start (isTop global_elem) breaker t1)
        as [[leftPath|e] t2]; reflexivity. }
    split.
    + intros e t1 Hright; rewrite Hfossil, Hright; reflexivity.
    + intros rightPath t1 Hright; split.
      * intros e t2 Hleft; rewrite Hfossil, Hright, Hleft; reflexivity.
      * intros leftPath t2 Hleft; rewrite Hfossil, Hright, Hleft; reflexivity.
Qed.

End AnteaterOrder.

Section AnteaterClaims.

Context {E S : Type} {U : Universe E S} {I : Imports E S}.

Variable global_elem : option E.

(** C4 (amended): when no common ancestor is found, [fossil] answers
    nothing and the tree is the one it received: no break and no insertion
    took place.  Nothing is not answered on that condition only: [fossil]
    also answers nothing when a common ancestor was found and, after both
    breaks, the left-edge marker is not among the direct children of the
    common ancestor. *)
Theorem fossil_none_cases (isRoot : E -> bool) (start finish : E) (t : S) :
  (shared t isRoot start finish = None ->
   fossil global_elem isRoot start finish t = (Ok None, t))
  /\ (forall common secondBreak t1 f t2,
        shared t isRoot start finish = Some common ->
        breakRight global_elem finish common t = (Ok secondBreak, t1) ->
        breakLeft global_elem start common t1 = (Ok (adt_descendant f), t2) ->
        Arr.findIndex (property_children t2 common) (universe_eq f) = (-1)%Z ->
        fossil global_elem isRoot start finish t = (Ok None, t2)).
Proof.
  split.
  - intros Hnone; unfold fossil, bind, gets; rewrite Hnone; reflexivity.
  - intros common secondBreak t1 f t2 Hshared Hright Hleft Hmissing.
    unfold fossil, bind, gets; rewrite Hshared; cbn [dom ret].
    rewrite Hright, Hleft.
    replace (slice t2 common (adt_descendant f) secondBreak) with (@None (list E));
      [reflexivity|].
    symmetry; apply slice_none.
    exists f; split; [reflexivity | exact Hmissing].
Qed.

(** C8 (amended): [fossil] does not look at the order of its two
    boundaries.  When both are direct children of the common ancestor and
    [start] is located after [finish], it does not fail: both breaks and
    the slice run as for any other pair, and the answer is the empty
    sequence, the tree left as it was. *)
Theorem fossil_checks_no_order (isRoot : E -> bool)
    (start finish common : E) (t : S) (i j : Z) :
  shared t isRoot start finish = Some common ->
  universe_eq common start = false ->
  universe_eq common finish = false ->
  Arr.findIndex (property_children t common) (universe_eq start) = i ->
  Arr.findIndex (property_children t common) (universe_eq finish) = j ->
  (0 <= j < i)%Z ->
  fossil global_elem isRoot start finish t = (Ok (Some []), t).
Proof.
  intros Hshared Hs Hf Hi Hj Horder.
  rewrite fossil_run, Hshared, Hs, Hf.
  unfold slice; simpl; rewrite Hi, Hj.
  destruct (Z.gtb_spec i (-1)); [|lia].
  destruct (Z.gtb_spec (j + 1) (-1)); [|lia].
  simpl; rewrite ArrFacts.array_slice_empty by lia; reflexivity.
Qed.

(** C9: in [slice] a parent marker gives the start index 0 as first
    marker and the number of children as last marker.  So a run of
    [fossil] whose common ancestor is [start] answers a sequence that
    begins at the first child of the common ancestor, and a run whose
    common ancestor is [finish] answers, when it answers a sequence, one
    that ends at the last child; [common] itself is never searched among
    its own children. *)
Theorem slice_parent_markers (isRoot : E -> bool)
    (start finish common : E) (t : S) :
  shared t isRoot start finish = Some common ->
  let children := property_children t common in
  let first := if universe_eq common start
               then adt_parent start else adt_descendant start in
  let last := if universe_eq common finish
              then adt_parent finish else adt_descendant finish in
  (forall e, first_index children (adt_parent e) = 0%Z
             /\ last_index children (adt_parent e) = Z.of_nat (length children))
  /\ (universe_eq common start = true ->
      fossil global_elem isRoot start finish t
      = (Ok (Some (firstn (Z.to_nat (last_index children last)) children)), t))
  /\ (universe_eq common finish = true ->
      fossil global_elem isRoot start finish t
      = (Ok (if (first_index children first >? -1)%Z
             then Some (skipn (Z.to_nat (first_index children first)) children)
             else None), t))
  /\ (universe_eq common start = true -> universe_eq common finish = true ->
      fossil global_elem isRoot start finish t
      = (Ok (Some children), t)).
Proof.
  intros Hshared children first last.
  assert (Hboth : forall e, first_index children (adt_parent e) = 0%Z
                            /\ last_index children (adt_parent e)
                               = Z.of_nat (length children))
    by (intros e; split; reflexivity).
  pose proof (last_index_nonneg children last) as Hl.
  pose proof (first_index_range children first) as Hf.
  split; [exact Hboth|].
  split; [|split].
  - intros Hs.
    rewrite fossil_run, Hshared.
    subst first last; rewrite Hs in *.
    unfold slice; fold children.
    destruct (Z.gtb_spec (last_index children
                (if universe_eq common finish
                 then adt_parent finish else adt_descendant finish)) (-1)); [|lia].
    simpl; rewrite ArrFacts.array_slice_from_start by lia; reflexivity.
  - intros Hfin.
    rewrite fossil_run, Hshared.
    subst first last; rewrite Hfin in *.
    unfold slice; fold children.
    simpl last_index in *.
    destruct (Z.gtb_spec (first_index children
                (if universe_eq common start
                 then adt_parent start else adt_descendant start)) (-1)).
    + destruct (Z.gtb_spec (Z.of_nat (length children)) (-1)); [|lia].
      simpl; rewrite ArrFacts.array_slice_to_end by lia; reflexivity.
    + reflexivity.
  - intros Hs Hfin.
    rewrite fossil_run, Hshared, Hs, Hfin.
    unfold slice; fold children; simpl.
    destruct (Z.gtb_spec (Z.of_nat (length children)) (-1)); [|lia].
    rewrite ArrFacts.array_slice_all; reflexivity.
Qed.

End AnteaterClaims.

(* ================================================================== *)
(** * Runs on the sample documents *)
(* ================================================================== *)

Import TestUniverse.

(** With the predicate of the design the sample [breakPath] does break:
    from [s] in [R[ A[ x, s ], B[ f, y ] ]] it splits [A] into two new
    nodes 7 = [A[ x ]] and 8 = [A[ s ]] under [R]. *)
Example breakPath_breaks_under_the_design_predicate :
  breakPath 4 (isTop_of_the_design both_nested 0) breakAt both_nested
  = (Ok {| first := 7; second := Some 8 |},
     [(7, [3]); (8, [4]); (0, [7; 8; 2]); (2, [5; 6]);
      (3, []); (4, []); (5, []); (6, [])]).
Proof. reflexivity. Qed.

(** C2 on the recording universe, [P[ a, b, c, d ]] with [start = b] and
    [finish = c]: the walk from [c] is asked for first, from a state that
    has no walk yet, the walk from [b] second, from the state that holds
    the first, and the slice is read from the state that holds both. *)
Lemma fossil_breaks_finish_side_first_witness :
  fossil (U := SpyUniverse.spy_universe) (Mo := SpyUniverse.spy_modules)
    None no_root 2 3 (family, [])
  = (Ok (Some [2; 3]), (family, [3; 2])).
Proof.
  refine (proj2
            (proj2
               (proj2
                  (fossil_breaks_finish_side_first
                     (U := SpyUniverse.spy_universe)
                     (Mo := SpyUniverse.spy_modules)
                     None no_root 2 3 (common := 0) (family, []) _)
                  _ _)
               {| first := 3; second := None |} (family, [3]) _)
            {| first := 2; second := None |} (family, [3; 2]) _);
    reflexivity.
Defined.

(** C4, as stated, fails: under [R[ A[ s ], f ]] the boundaries [s] and
    [f] have the common ancestor [R], and [fossil] answers nothing. *)
Lemma fossil_none_under_a_common_ancestor :
  shared nested_start no_root 2 3 = Some 0
  /\ fossil None no_root 2 3 nested_start = (Ok None, nested_start).
Proof. split; reflexivity. Qed.

(** C4 (amended) on two disjoint trees, which have no common ancestor,
    and on [R[ A[ s ], f ]], where the left-edge marker [s] is not a child
    of the common ancestor [R]. *)
Lemma fossil_none_cases_witness :
  (shared disjoint no_root 1 6 = None
   /\ fossil None no_root 1 6 disjoint = (Ok None, disjoint))
  /\ (shared nested_start no_root 2 3 = Some 0
      /\ Arr.findIndex (children nested_start 0) (Nat.eqb 2) = (-1)%Z
      /\ fossil None no_root 2 3 nested_start = (Ok None, nested_start)).
Proof.
  split.
  - split; [reflexivity|].
    apply (proj1 (fossil_none_cases None no_root 1 6 disjoint)).
    reflexivity.
  - split; [reflexivity|].
    split; [reflexivity|].
    apply (proj2 (fossil_none_cases None no_root 2 3 nested_start)
             0 (adt_descendant 3) nested_start 2);
      reflexivity.
Defined.

(** C8, as stated, fails: [b] comes after [a] under [R[ a, b ]], and
    [fossil] called with [start = b] and [finish = a] ends normally, with
    the empty sequence. *)
Lemma fossil_accepts_reversed_siblings :
  precedes siblings 0 2 1 = false
  /\ Nat.eqb 2 1 = false
  /\ fossil None no_root 2 1 siblings = (Ok (Some []), siblings).
Proof. repeat split. Qed.

(** C8 (amended) on [R[ a, b ]] with [start = b] and [finish = a]. *)
Lemma fossil_checks_no_order_witness :
  fossil None no_root 2 1 siblings = (Ok (Some []), siblings).
Proof.
  apply (fossil_checks_no_order None no_root 2 1 (common := 0) siblings
           (i := 1) (j := 0));
    solve [reflexivity | lia].
Defined.

(** C9 on [R[ a, b ]] with [start = R], the common ancestor, and
    [finish = b]. *)
Lemma slice_parent_markers_witness :
  fossil None no_root 0 2 siblings = (Ok (Some [1; 2]), siblings).
Proof.
  refine (proj1 (proj2 (slice_parent_markers None no_root 0 2 (common := 0)
                          siblings _)) _);
    reflexivity.
Defined.

(** C1: under [R[ s, B[ f, g ] ]] the pair [(s, f)] is in document order
    and has the common ancestor [R]; the leaves between the two are [s]
    and [f], and the sequence [fossil] answers has no leaf at all. *)
Theorem fossil_drops_nested_finish (global_elem : option node) :
  precedes nested_finish 0 1 3 = true
  /\ shared nested_finish no_root 1 3 = Some 0
  /\ leaves_between nested_finish 0 1 3 = [1; 3]
  /\ exists seq,
       fossil global_elem no_root 1 3 nested_finish
       = (Ok (Some seq), nested_finish)
       /\ flat_map (leaves (length nested_finish) nested_finish) seq = [].
Proof.
  split; [reflexivity|].
  split; [reflexivity|].
  split; [reflexivity|].
  exists []; split; [|reflexivity].
  rewrite fossil_run.
  reflexivity.
Qed.

(** C3: [f] is not among the children of [R] in [R[ s, B[ f, g ] ]];
    [slice] with the last marker [f] answers the empty sequence instead of
    nothing, and so does [fossil]. *)
Theorem slice_answers_without_last_marker (global_elem : option node) :
  Arr.findIndex (children nested_finish 0) (Nat.eqb 3) = (-1)%Z
  /\ last_index (children nested_finish 0) (adt_descendant 3) = 0%Z
  /\ slice nested_finish 0 (adt_descendant 1) (adt_descendant 3) = Some []
  /\ fossil global_elem no_root 1 3 nested_finish
     = (Ok (Some []), nested_finish).
Proof.
  split; [reflexivity|].
  split; [reflexivity|].
  split; [reflexivity|].
  rewrite fossil_run.
  reflexivity.
Qed.

(** C5: in [R[ A[ x, s ], B[ f, y ] ]] the parent of [s] is [A], which is
    not the common ancestor [R] of [s] and [f], so the predicate of the
    design is false for [s]; still [isTop(s)], as [Parent.breakPath]
    evaluates it, counts as true.  The function it returns would throw if
    it were called: on its free identifier [elem] when [isTop] was applied
    to the universe, before that when applied to a node. *)
Theorem isTop_holds_below_the_common_ancestor (global_elem : option node) :
  parent both_nested 4 = Some 1
  /\ shared both_nested no_root 4 5 = Some 0
  /\ universe_eq 0 1 = false
  /\ truthy (isTop_of_the_design both_nested 0 (ArgElement 4)) = false
  /\ truthy (isTop (S := tree) global_elem (ArgElement 4)) = true
  /\ (forall common t,
        isTop_body None ArgUniverse common t = (Throw ReferenceError, t))
  /\ (forall n common t,
        isTop_body global_elem (ArgElement n) common t = (Throw TypeError, t)).
Proof.
  split; [reflexivity|].
  split; [reflexivity|].
  split; [reflexivity|].
  split; [reflexivity|].
  split; [apply isTop_truthy|].
  split; intros; reflexivity.
Qed.

(** C6: in [R[ A[ x, s ], B[ f, y ] ]] neither boundary is the common
    ancestor [R] and both sides need a break; [breakRight] and [breakLeft]
    answer the boundaries [f] and [s] themselves, which still sit under
    [B] and [A], and the tree has no new half. *)
Theorem breaks_answer_the_boundaries (global_elem : option node) :
  shared both_nested no_root 4 5 = Some 0
  /\ parent both_nested 5 = Some 2
  /\ parent both_nested 4 = Some 1
  /\ breakRight global_elem 5 0 both_nested
     = (Ok (adt_descendant 5), both_nested)
  /\ breakLeft global_elem 4 0 both_nested
     = (Ok (adt_descendant 4), both_nested)
  /\ fossil global_elem no_root 4 5 both_nested
     = (Ok None, both_nested).
Proof.
  split; [reflexivity|].
  split; [reflexivity|].
  split; [reflexivity|].
  split; [rewrite breakRight_run; reflexivity|].
  split; [rewrite breakLeft_run; reflexivity|].
  rewrite fossil_run.
  reflexivity.
Qed.

(** C7: in [R[ s, B[ f ] ]] the boundary [s] is the first child of its
    parent and [f] the last child of its own.  Neither side splits and
    each marker is the boundary itself, but the sequence [fossil] answers
    holds neither [s] nor [f]. *)
Theorem edge_boundaries_are_not_answered (global_elem : option node) :
  (parent edge_children 1 = Some 0 /\ children edge_children 0 = [1; 2])
  /\ (parent edge_children 3 = Some 2 /\ children edge_children 2 = [3])
  /\ breakLeft global_elem 1 0 edge_children
     = (Ok (adt_descendant 1), edge_children)
  /\ breakRight global_elem 3 0 edge_children
     = (Ok (adt_descendant 3), edge_children)
  /\ exists seq,
       fossil global_elem no_root 1 3 edge_children
       = (Ok (Some seq), edge_children)
       /\ ~ In 1 seq /\ ~ In 3 seq.
Proof.
  split; [split; reflexivity|].
  split; [split; reflexivity|].
  split; [rewrite breakLeft_run; reflexivity|].
  split; [rewrite breakRight_run; reflexivity|].
  exists []; split; [|split; intros []].
  rewrite fossil_run.
  reflexivity.
Qed.

(* ================================================================== *)
(** * Properties of setContentInternal *)
(* ================================================================== *)

Section SetContentClaims.

Import SetContent.

Context {Ed Node AstNode CaretPosition Range Attrs : Type}
        {editor : Editor Ed Node AstNode CaretPosition Range Attrs}.

(** C10: [setContentInternal] answers the content it was given when
    [preProcessSetContent] answers no arguments, and when the editor has
    no body.  In the first case the editor is left as the pre-processing
    hook left it.  In the second case the only step after the
    pre-processing hook is the post-processing hook, called with the
    content of the updated arguments: nothing is written to the
    document. *)
Theorem setContentInternal_hands_back_content
    (c : Content AstNode) (args : PartialArgs) (ed : Ed) :
  (forall ed1,
     preProcessSetContent (setupArgs args c) ed = (None, ed1) ->
     setContentInternal c args ed = (c, ed1))
  /\ (forall updatedArgs ed1,
        preProcessSetContent (setupArgs args c) ed = (Some updatedArgs, ed1) ->
        getBody ed1 = None ->
        setContentInternal c args ed
        = (c, postProcessSetContent (args_content updatedArgs) updatedArgs ed1)).
Proof.
  split.
  - intros ed1 Hpre.
    unfold setContentInternal; rewrite Hpre; reflexivity.
  - intros updatedArgs ed1 Hpre Hbody.
    unfold setContentInternal; rewrite Hpre, Hbody; reflexivity.
Qed.

End SetContentClaims.

(** C10 on the recording editor: a vetoed call with a string, and a call
    with a tree on an editor that has no body. *)
Lemma setContentInternal_hands_back_content_witness :
  SetContent.setContentInternal (editor := TestEditor.recording)
    (SetContent.CString "hello") TestEditor.plain TestEditor.vetoing
  = (SetContent.CString "hello",
     TestEditor.record TestEditor.BeforeSetContent TestEditor.vetoing)
  /\ SetContent.setContentInternal (editor := TestEditor.recording)
       (SetContent.CTree 5) TestEditor.plain TestEditor.bodiless
     = (SetContent.CTree 5,
        {| TestEditor.body := None;
           TestEditor.prevented := false;
           TestEditor.log := [TestEditor.BeforeSetContent;
                              TestEditor.SetContentFired ""] |}).
Proof.
  split.
  - apply (proj1 (setContentInternal_hands_back_content
                    (editor := TestEditor.recording)
                    (SetContent.CString "hello") TestEditor.plain
                    TestEditor.vetoing)).
    reflexivity.
  - refine (proj2 (setContentInternal_hands_back_content
                     (editor := TestEditor.recording)
                     (SetContent.CTree 5) TestEditor.plain
                     TestEditor.bodiless)
                  (SetContent.setupArgs TestEditor.plain (SetContent.CTree 5))
                  (TestEditor.record TestEditor.BeforeSetContent
                     TestEditor.bodiless) _ _);
      reflexivity.
Defined.

(* ================================================================== *)
(** * More about slice, breaker and fossil *)
(* ================================================================== *)

Module ArrMore.

Import Arr.
Open Scope Z_scope.

(** An index that is not -1 points at an element that satisfies the
    predicate. *)
Lemma findIndex_from_found {A} (pred : A -> bool) (xs : list A) (i k : Z) :
  findIndex_from i xs pred = k -> k <> -1 -> 0 <= i ->
  exists e, nth_error xs (Z.to_nat (k - i)) = Some e /\ pred e = true.
Proof.
  revert i; induction xs as [|x rest IH]; intros i Hk Hfound Hi; simpl in Hk.
  - congruence.
  - destruct (pred x) eqn:Hx.
    + subst k; rewrite Z.sub_diag; exists x; split; [reflexivity | exact Hx].
    + destruct (ArrFacts.findIndex_from_range pred rest (i + 1)) as [Hn | Hr];
        [congruence|].
      destruct (IH (i + 1) Hk Hfound ltac:(lia)) as (e & Hnth & He).
      exists e; split; [|exact He].
      replace (Z.to_nat (k - i)) with (S (Z.to_nat (k - (i + 1)))) by lia.
      exact Hnth.
Qed.

Lemma findIndex_found {A} (pred : A -> bool) (xs : list A) (k : Z) :
  findIndex xs pred = k -> 0 <= k ->
  exists e, nth_error xs (Z.to_nat k) = Some e /\ pred e = true.
Proof.
  intros Hk Hpos.
  destruct (findIndex_from_found pred xs (i := 0) Hk ltac:(lia) ltac:(lia))
    as (e & Hnth & He).
  rewrite Z.sub_0_r in Hnth; eauto.
Qed.

(** A slice of an array is a run of it: what comes before and what comes
    after can be put back around it. *)
Lemma array_slice_run {A} (xs : list A) (start stop : Z) :
  exists before after, xs = before ++ array_slice xs start stop ++ after.
Proof.
  unfold array_slice.
  set (k := Z.to_nat _); set (n := Z.to_nat _).
  exists (firstn n xs), (skipn k (skipn n xs)).
  rewrite (firstn_skipn k (skipn n xs)).
  symmetry; apply firstn_skipn.
Qed.

End ArrMore.

Section AnteaterMore.

Context {E S : Type} {U : Universe E S} {I : Imports E S}.

Variable global_elem : option E.

(** With both markers found among the children, the first not after the
    last, [slice] answers the children from the one to the other. *)
Lemma slice_located (t : S) (parent f l : E) (i j : Z) :
  Arr.findIndex (property_children t parent) (universe_eq f) = i ->
  Arr.findIndex (property_children t parent) (universe_eq l) = j ->
  (0 <= i <= j)%Z ->
  exists seq x y,
    slice t parent (adt_descendant f) (adt_descendant l) = Some seq
    /\ seq = firstn (Z.to_nat (j - i + 1))
               (skipn (Z.to_nat i) (property_children t parent))
    /\ Z.of_nat (length seq) = (j - i + 1)%Z
    /\ nth_error seq 0 = Some x /\ universe_eq f x = true
    /\ nth_error seq (Z.to_nat (j - i)) = Some y /\ universe_eq l y = true.
Proof.
  intros Hi Hj Horder.
  set (children := property_children t parent) in *.
  destruct (ArrFacts.findIndex_range (universe_eq f) children) as [Hfn | Hfr];
    [lia|].
  destruct (ArrFacts.findIndex_range (universe_eq l) children) as [Hln | Hlr];
    [lia|].
  destruct (ArrMore.findIndex_found (universe_eq f) children Hi ltac:(lia))
    as (x & Hx & Hfx).
  destruct (ArrMore.findIndex_found (universe_eq l) children Hj ltac:(lia))
    as (y & Hy & Hly).
  exists (firstn (Z.to_nat (j - i + 1)) (skipn (Z.to_nat i) children)), x, y.
  split.
  { unfold slice; fold children; simpl; rewrite Hi, Hj.
    destruct (Z.gtb_spec i (-1)); [|lia].
    destruct (Z.gtb_spec (j + 1) (-1)); [|lia].
    simpl; rewrite ArrFacts.array_slice_inside by lia.
    do 2 f_equal; lia. }
  split; [reflexivity|].
  split.
  { rewrite length_firstn, length_skipn; lia. }
  split.
  { rewrite nth_error_firstn, nth_error_skipn.
    destruct (Nat.ltb_spec 0 (Z.to_nat (j - i + 1))); [|lia].
    rewrite Nat.add_0_r; exact Hx. }
  split; [exact Hfx|].
  split; [|exact Hly].
  rewrite nth_error_firstn, nth_error_skipn.
  destruct (Nat.ltb_spec (Z.to_nat (j - i)) (Z.to_nat (j - i + 1))); [|lia].
  replace (Z.to_nat i + Z.to_nat (j - i))%nat with (Z.to_nat j) by lia.
  exact Hy.
Qed.

(** X1: whatever the two markers are, a sequence answered by [slice] is a
    run of the direct children of [parent]: the children are some nodes
    before it, the sequence itself, and some nodes after it. *)
Theorem slice_answers_a_run_of_children (t : S) (parent : E)
    (first last : adt E) (seq : list E) :
  slice t parent first last = Some seq ->
  exists before after, property_children t parent = before ++ seq ++ after.
Proof.
  unfold slice; intros Hslice.
  destruct (_ && _)%bool; [|discriminate].
  injection Hslice as <-.
  apply ArrMore.array_slice_run.
Qed.

(** X2: when both markers are descendants found among the children of
    [parent], the first one at or before the last one, [slice] answers the
    children from the first marker to the last marker, both included: the
    sequence starts with a node equal to the first marker, ends with a
    node equal to the last one, and has as many nodes as the two indices
    span. *)
Theorem slice_spans_located_markers (t : S) (parent f l : E) (i j : Z) :
  Arr.findIndex (property_children t parent) (universe_eq f) = i ->
  Arr.findIndex (property_children t parent) (universe_eq l) = j ->
  (0 <= i <= j)%Z ->
  exists seq x y,
    slice t parent (adt_descendant f) (adt_descendant l) = Some seq
    /\ Z.of_nat (length seq) = (j - i + 1)%Z
    /\ nth_error seq 0 = Some x /\ universe_eq f x = true
    /\ nth_error seq (Z.to_nat (j - i)) = Some y /\ universe_eq l y = true.
Proof.
  intros Hi Hj Horder.
  destruct (slice_located t parent f l Hi Hj Horder)
    as (seq & x & y & Hslice & _ & Hrest).
  exists seq, x, y; split; [exact Hslice | exact Hrest].
Qed.

(** X3: however a run of [fossil] ends, it leaves the tree as it received
    it, and a sequence it answers is a run of the direct children that the
    common ancestor has in that tree. *)
Theorem fossil_answers_a_run_of_children (isRoot : E -> bool)
    (start finish : E) (t t' : S) (out : outcome (option (list E))) :
  fossil global_elem isRoot start finish t = (out, t') ->
  t' = t
  /\ forall seq,
       out = Ok (Some seq) ->
       exists common before after,
         shared t isRoot start finish = Some common
         /\ property_children t common = before ++ seq ++ after.
Proof.
  rewrite fossil_run; intros Hrun.
  injection Hrun as Hout Ht.
  split; [symmetry; exact Ht|].
  intros seq Hseq; subst out.
  injection Hseq as Hseq.
  destruct (shared t isRoot start finish) as [common|]; [|discriminate].
  unfold slice in Hseq.
  destruct (_ && _)%bool; [|discriminate].
  injection Hseq as <-.
  destruct (ArrMore.array_slice_run (property_children t common)
              (first_index (property_children t common)
                 (if universe_eq common start
                  then adt_parent start else adt_descendant start))
              (last_index (property_children t common)
                 (if universe_eq common finish
                  then adt_parent finish else adt_descendant finish)))
    as (before & after & Hrun).
  exists common, before, after; split; [reflexivity | exact Hrun].
Qed.

(** X4: when [start] and [finish] are both found among the direct children
    of their common ancestor, [start] at or before [finish], [fossil]
    answers the children from [start] to [finish], both included, and
    leaves the tree as it was. *)
Theorem fossil_between_siblings (isRoot : E -> bool)
    (start finish common : E) (t : S) (i j : Z) :
  shared t isRoot start finish = Some common ->
  universe_eq common start = false ->
  universe_eq common finish = false ->
  Arr.findIndex (property_children t common) (universe_eq start) = i ->
  Arr.findIndex (property_children t common) (universe_eq finish) = j ->
  (0 <= i <= j)%Z ->
  exists seq x y,
    fossil global_elem isRoot start finish t = (Ok (Some seq), t)
    /\ seq = firstn (Z.to_nat (j - i + 1))
               (skipn (Z.to_nat i) (property_children t common))
    /\ nth_error seq 0 = Some x /\ universe_eq start x = true
    /\ nth_error seq (Z.to_nat (j - i)) = Some y /\ universe_eq finish y = true.
Proof.
  intros Hshared Hs Hf Hi Hj Horder.
  destruct (slice_located t common start finish Hi Hj Horder)
    as (seq & x & y & Hslice & Hseq & _ & Hrest).
  exists seq, x, y.
  rewrite fossil_run, Hshared, Hs, Hf, Hslice.
  split; [reflexivity|].
  split; [exact Hseq | exact Hrest].
Qed.

(** X5: [breaker] hands on the answer of [Parent.breakAt] as it got it,
    and when that answer is no break it makes no insertion: the tree is
    the one [Parent.breakAt] left. *)
Theorem breaker_keeps_the_break (parent child : E) (t t' : S)
    (r : option (handle E)) :
  breaker parent child t = (Ok r, t') ->
  exists t1,
    Parent_breakAt parent child t = (Ok r, t1)
    /\ (r = None -> t' = t1).
Proof.
  unfold breaker, bind; cbn [dom ret]; intros Hrun.
  destruct (Parent_breakAt parent child t) as [[brk|e] t1]; [|discriminate].
  destruct brk as [b|].
  - destruct (dom b t1) as [[[]|e] t2]; [|discriminate].
    destruct (insert_prepend b child t2) as [[[]|e] t3]; [|discriminate].
    injection Hrun as <- <-.
    exists t1; split; [reflexivity | discriminate].
  - injection Hrun as <- <-.
    exists t1; split; [reflexivity | reflexivity].
Qed.

End AnteaterMore.

(* ================================================================== *)
(** * More about the content setter *)
(* ================================================================== *)

Section SetContentMore.

Import SetContent.
Open Scope string_scope.

Context {Ed Node AstNode CaretPosition Range Attrs : Type}
        {editor : Editor Ed Node AstNode CaretPosition Range Attrs}.

(** X6: [setContentInternal] answers content of the kind it was given.
    For a tree it is that very tree, whether the call was vetoed, found no
    body, or wrote the tree; for a string it is a string. *)
Theorem setContentInternal_keeps_the_kind (args : PartialArgs) (ed : Ed) :
  (forall n : AstNode, fst (setContentInternal (CTree n) args ed) = CTree n)
  /\ (forall s, exists s',
        fst (setContentInternal (CString s) args ed) = CString s').
Proof.
  split.
  - intros n; unfold setContentInternal.
    destruct (preProcessSetContent _ ed) as [[updatedArgs|] ed1];
      [|reflexivity].
    simpl isTreeNode; cbv iota.
    destruct (getBody ed1) as [body|]; reflexivity.
  - intros s; unfold setContentInternal.
    destruct (preProcessSetContent _ ed) as [[updatedArgs|] ed1];
      [|exists s; reflexivity].
    simpl isTreeNode; cbv iota.
    destruct (getBody ed1) as [body|]; [|exists s; reflexivity].
    unfold setContentString.
    destruct (_ || _)%bool; eexists; reflexivity.
Qed.

(** X7: in the result of [setContentString] the content and the html are
    one and the same string, whatever the content, the body and the
    settings are. *)
Theorem setContentString_content_is_html (body : Node) (c : string)
    (args : SetContentArgs) (ed : Ed) :
  content (fst (setContentString body c args ed))
  = CString (html (fst (setContentString body c args ed))).
Proof.
  unfold setContentString.
  destruct (_ || _)%bool; reflexivity.
Qed.

(** X8: a string that is neither empty nor made of white space only is
    set as it comes out of the pre-processing hook: the body is emptied,
    the fragment parsed from it is appended, the post-processing hook
    gets the same string, and [setContentInternal] answers it
    unchanged. *)
Theorem setContentInternal_sets_a_plain_string (s : string)
    (args : PartialArgs) (ed ed1 : Ed) (updatedArgs : SetContentArgs)
    (body : Node) :
  preProcessSetContent (setupArgs args (CString (AstNode := AstNode) s)) ed
  = (Some updatedArgs, ed1) ->
  getBody ed1 = Some body ->
  String.length (args_content updatedArgs) <> 0 ->
  only_whitespace (args_content updatedArgs) = false ->
  setContentInternal (CString s) args ed
  = (CString (args_content updatedArgs),
     postProcessSetContent (args_content updatedArgs) updatedArgs
       (setEditorHtml
          (HNode (parser_parse ed1 (args_content updatedArgs)))
          (args_no_selection updatedArgs) ed1)).
Proof.
  intros Hpre Hbody Hlen Hspace.
  unfold setContentInternal; rewrite Hpre; simpl isTreeNode; cbv iota.
  rewrite Hbody; unfold setContentString.
  apply Nat.eqb_neq in Hlen; rewrite Hlen, Hspace; reflexivity.
Qed.

(** X9: empty content is never written as an empty document when no
    forced root block applies (the setting is off, or the schema does not
    accept the block in the body): the html written and answered holds the
    bogus line break, alone, or inside a table row when the body is a
    TABLE, or inside a list item when it is a UL or an OL. *)
Theorem setContentString_pads_empty_content (body : Node)
    (args : SetContentArgs) (ed : Ed) :
  Settings_getForcedRootBlock ed = ""
  \/ schema_isValidChild ed (toLowerCase (nodeName body))
       (toLowerCase (Settings_getForcedRootBlock ed)) = false ->
  let written :=
    if String.eqb (nodeName body) "TABLE" then "<tr><td>" ++ padd ++ "</td></tr>"
    else if (String.eqb (nodeName body) "UL" || String.eqb (nodeName body) "OL")%bool
         then "<li>" ++ padd ++ "</li>"
         else padd in
  setContentString body "" args ed
  = ({| content := CString written; html := written |},
     setEditorHtml (HString written) (args_no_selection args) ed)
  /\ written <> ""
  /\ exists before after, written = before ++ padd ++ after.
Proof.
  intros Hblock written.
  assert (Hcond :
    (negb (String.eqb (Settings_getForcedRootBlock ed) "")
     && schema_isValidChild ed (toLowerCase (nodeName body))
          (toLowerCase (Settings_getForcedRootBlock ed)))%bool = false).
  { destruct Hblock as [Hoff | Hinvalid].
    - rewrite Hoff; reflexivity.
    - rewrite Hinvalid; apply andb_false_r. }
  split; [|split].
  - unfold setContentString; simpl (Nat.eqb _ _ || _)%bool; cbv iota.
    rewrite Hcond; unfold is_list_name; subst written.
    destruct (String.eqb (nodeName body) "TABLE"); [reflexivity|].
    destruct (String.eqb (nodeName body) "UL" || String.eqb (nodeName body) "OL")%bool;
      reflexivity.
  - subst written.
    destruct (String.eqb (nodeName body) "TABLE"); [discriminate|].
    destruct (_ || _)%bool; discriminate.
  - subst written.
    destruct (String.eqb (nodeName body) "TABLE");
      [exists "<tr><td>", "</td></tr>"; reflexivity|].
    destruct (_ || _)%bool;
      [exists "<li>", "</li>"; reflexivity | exists "", ""; reflexivity].
Qed.

(** X10: when a forced root block is set and the schema accepts it in the
    body, content that is empty or white space only is replaced by that
    block around the bogus line break, whatever the body is: the white
    space and the table row or list item of a TABLE, UL or OL body are
    dropped. *)
Theorem setContentString_wraps_blank_content_in_the_root_block (body : Node)
    (c : string) (args : SetContentArgs) (ed : Ed) :
  String.length c = 0 \/ only_whitespace c = true ->
  Settings_getForcedRootBlock ed <> "" ->
  schema_isValidChild ed (toLowerCase (nodeName body))
    (toLowerCase (Settings_getForcedRootBlock ed)) = true ->
  let written :=
    dom_createHTML ed (Settings_getForcedRootBlock ed)
      (Settings_getForcedRootBlockAttrs ed) padd in
  setContentString body c args ed
  = ({| content := CString written; html := written |},
     setEditorHtml (HString written) (args_no_selection args) ed).
Proof.
  intros Hblank Hblock Hvalid written.
  assert (Hcond : (Nat.eqb (String.length c) 0 || only_whitespace c)%bool = true).
  { destruct Hblank as [Hlen | Hspace].
    - rewrite Hlen; reflexivity.
    - rewrite Hspace; apply orb_true_r. }
  apply String.eqb_neq in Hblock.
  unfold setContentString; rewrite Hcond, Hblock, Hvalid; reflexivity.
Qed.

(** X11: [setEditorHtml] touches the selection only when the editor has
    the focus after the write and a caret position exists in its body:
    otherwise it does what it does under [no_selection], the write
    alone. *)
Theorem setEditorHtml_moves_the_selection_only_with_focus (h : Html Node)
    (noSelection : option bool) (ed : Ed) :
  let written := setEditorHtml h (Some true) ed in
  EditorFocus_hasFocus written = false
  \/ CaretFinder_firstPositionIn written (getBody written) = None ->
  setEditorHtml h noSelection ed = written.
Proof.
  intros written Hquiet.
  assert (Hmove : moveSelection written = written).
  { unfold moveSelection.
    destruct (EditorFocus_hasFocus written) eqn:Hfocus; [|reflexivity].
    destruct Hquiet as [Hno | Hnone]; [discriminate|].
    rewrite Hnone; reflexivity. }
  destruct noSelection as [[|]|]; [reflexivity | exact Hmove | exact Hmove].
Qed.

(** X19: a tree is set from the tree itself, not from the content of the
    updated arguments: the node filters run on it first, the html written
    and handed to the post-processing hook is its serialisation after the
    filters, trimmed unless the body preserves white space, and
    [setContentInternal] answers the tree. *)
Theorem setContentInternal_sets_a_tree (n : AstNode) (args : PartialArgs)
    (ed ed1 : Ed) (updatedArgs : SetContentArgs) (body : Node) :
  preProcessSetContent (setupArgs args (CTree n)) ed = (Some updatedArgs, ed1) ->
  getBody ed1 = Some body ->
  let filtered := FilterNode_filter n ed1 in
  let serialized := HtmlSerializer_serialize filtered n in
  let written :=
    if isWsPreserveElement body then serialized else Tools_trim serialized in
  setContentInternal (CTree n) args ed
  = (CTree n,
     postProcessSetContent written updatedArgs
       (setEditorHtml (HString written) (args_no_selection updatedArgs)
          filtered)).
Proof.
  intros Hpre Hbody filtered serialized written.
  unfold setContentInternal; rewrite Hpre; simpl isTreeNode; cbv iota.
  rewrite Hbody; reflexivity.
Qed.

End SetContentMore.

(* ================================================================== *)
(** * Properties of the image tools *)
(* ================================================================== *)

Module StringFacts.

Open Scope string_scope.

(** A pattern is found at position 0 exactly when it is a prefix. *)
Lemma index_zero_prefix (pat s : string) :
  String.index 0 pat s = Some 0 <-> String.prefix pat s = true.
Proof.
  destruct s as [|c s]; cbn [String.index].
  - destruct pat; simpl; split; intros H; congruence.
  - destruct (String.prefix pat (String c s)).
    + tauto.
    + destruct (String.index 0 pat s); split; intros H; discriminate.
Qed.

Lemma indexOf_zero_prefix (s pat : string) :
  (ImageTools.indexOf s pat =? 0)%Z = String.prefix pat s.
Proof.
  unfold ImageTools.indexOf.
  destruct (String.index 0 pat s) as [n|] eqn:Hindex.
  - destruct n as [|n].
    + apply index_zero_prefix in Hindex; rewrite Hindex; reflexivity.
    + destruct (String.prefix pat s) eqn:Hprefix.
      * apply index_zero_prefix in Hprefix; congruence.
      * destruct (Z.eqb_spec (Z.of_nat (S n)) 0); [lia | reflexivity].
  - destruct (String.prefix pat s) eqn:Hprefix; [|reflexivity].
    apply index_zero_prefix in Hprefix; congruence.
Qed.

Lemma prefix_append (pat s1 s2 : string) :
  String.prefix pat s1 = true -> String.prefix pat (s1 ++ s2) = true.
Proof.
  revert s1; induction pat as [|a pat IH]; intros s1 H;
    [destruct (s1 ++ s2); reflexivity|].
  destruct s1 as [|b s1]; simpl in *; [discriminate|].
  destruct (Ascii.ascii_dec a b); [apply IH; exact H | discriminate].
Qed.

Lemma prefix_self_append (pat s : string) : String.prefix pat (pat ++ s) = true.
Proof.
  induction pat as [|a pat IH]; [destruct s; reflexivity|].
  simpl; destruct (Ascii.ascii_dec a a); [exact IH | congruence].
Qed.

(** A string in which the pattern occurs still holds it after something
    is appended. *)
Lemma index_found_append (pat s1 s2 : string) :
  String.index 0 pat s1 <> None -> String.index 0 pat (s1 ++ s2) <> None.
Proof.
  induction s1 as [|c s1 IH]; intros Hfound.
  - destruct pat as [|a pat]; [|simpl in Hfound; congruence].
    destruct s2; simpl; discriminate.
  - cbn [String.index append] in *.
    destruct (String.prefix pat (String c s1)) eqn:Hprefix.
    + apply (prefix_append _ _ s2) in Hprefix.
      cbn [append] in Hprefix; rewrite Hprefix; discriminate.
    + destruct (String.prefix pat (String c (s1 ++ s2))); [discriminate|].
      destruct (String.index 0 pat s1) eqn:Hrest; [|congruence].
      destruct (String.index 0 pat (s1 ++ s2)) eqn:Happ; [discriminate|].
      exfalso; apply IH; [discriminate | reflexivity].
Qed.

(** The pattern occurs in whatever is put around it. *)
Lemma index_found_middle (pat s1 s2 : string) :
  String.index 0 pat (s1 ++ pat ++ s2) <> None.
Proof.
  induction s1 as [|c s1 IH].
  - cbn [append].
    destruct (pat ++ s2) as [|c rest] eqn:Hshape.
    + destruct pat; [simpl; discriminate | discriminate].
    + cbn [String.index]; rewrite <- Hshape, prefix_self_append; discriminate.
  - cbn [String.index append].
    destruct (String.prefix pat (String c (s1 ++ pat ++ s2))); [discriminate|].
    destruct (String.index 0 pat (s1 ++ pat ++ s2)); [discriminate | congruence].
Qed.

Lemma append_assoc (s1 s2 s3 : string) : (s1 ++ s2) ++ s3 = s1 ++ s2 ++ s3.
Proof.
  induction s1 as [|c s1 IH]; [reflexivity|].
  simpl; rewrite IH; reflexivity.
Qed.

(** A common prefix can be taken off both sides. *)
Lemma append_inj_l (p s1 s2 : string) : p ++ s1 = p ++ s2 -> s1 = s2.
Proof.
  induction p as [|c p IH]; intros H; [exact H|].
  injection H as H; apply IH; exact H.
Qed.

End StringFacts.

Section ImageToolsFacts.

Import ImageTools.
Open Scope string_scope.

Context {Ed Img Blob BlobInfo Key : Type} {host : Host Ed Img Blob BlobInfo Key}.

(** X12: an image is local exactly when its URL starts with [data:], or
    starts with [blob:], or has the host of the document; so a data or
    blob URL is local whatever the hosts are. *)
Theorem isLocalImage_by_scheme_or_host (ed : Ed) (img : Img) :
  isLocalImage ed img = true
  <-> (String.prefix "data:" (src img) = true
       \/ String.prefix "blob:" (src img) = true
       \/ URI_host (src img) = documentBaseURI_host ed).
Proof.
  unfold isLocalImage; cbv zeta.
  rewrite !StringFacts.indexOf_zero_prefix, !orb_true_iff, String.eqb_eq.
  tauto.
Qed.

(** X13: an image that is neither on a CORS host nor local is asked for
    through the proxy service, with the API key and without credentials.
    The URL asked for starts with the configured proxy URL, ends with
    [url=] and the encoded address of the image, and always holds a
    question mark: one is added exactly when the proxy URL has none. *)
Theorem imageToBlob_builds_the_proxy_url (ed : Ed) (img : Img) :
  isCorsImage ed img = false ->
  isLocalImage ed img = false ->
  exists url,
    imageToBlob ed img
    = ProxyGetUrl url (Some (Settings_getApiKey ed)) false
    /\ String.prefix (Settings_getProxyUrl ed) url = true
    /\ (exists before,
          url = before ++ "url=" ++ encodeURIComponent (src img))
    /\ indexOf url "?" <> (-1)%Z
    /\ (indexOf (Settings_getProxyUrl ed) "?" <> (-1)%Z ->
        url = Settings_getProxyUrl ed ++ "&url=" ++ encodeURIComponent (src img))
    /\ (indexOf (Settings_getProxyUrl ed) "?" = (-1)%Z ->
        url = Settings_getProxyUrl ed ++ "?url=" ++ encodeURIComponent (src img)).
Proof.
  intros Hcors Hlocal.
  unfold imageToBlob; rewrite Hcors, Hlocal; cbn [negb]; cbv zeta.
  set (proxy := Settings_getProxyUrl ed).
  set (enc := encodeURIComponent (src img)).
  eexists; split; [reflexivity|].
  split; [apply StringFacts.prefix_self_append|].
  assert (Hmark : forall s, indexOf s "?" <> (-1)%Z <-> String.index 0 "?" s <> None).
  { intros s; unfold indexOf.
    destruct (String.index 0 "?" s); split; intros H; try congruence; lia. }
  destruct (Z.eqb_spec (indexOf proxy "?") (-1)) as [Hnone | Hsome].
  - split; [exists (proxy ++ "?"); rewrite !StringFacts.append_assoc; reflexivity|].
    split; [|split; [intros Hhas; congruence | intros _; reflexivity]].
    apply Hmark.
    change (String.index 0 "?" (proxy ++ "?" ++ "url=" ++ enc) <> None).
    apply StringFacts.index_found_middle.
  - split; [exists (proxy ++ "&"); rewrite !StringFacts.append_assoc; reflexivity|].
    split; [|split; [intros _; reflexivity | intros Hhas; congruence]].
    apply Hmark, StringFacts.index_found_append, Hmark, Hsome.
Qed.

(** X14: an image is converted in the browser, with no request, exactly
    when it is local and not on a CORS host; an image on a CORS host is
    asked for at its own address, without an API key. *)
Theorem imageToBlob_routes (ed : Ed) (img : Img) :
  (imageToBlob ed img = ImageToBlob img
   <-> isCorsImage ed img = false /\ isLocalImage ed img = true)
  /\ (isCorsImage ed img = true ->
      imageToBlob ed img
      = ProxyGetUrl (src img) None (isCorsWithCredentialsImage ed img)).
Proof.
  unfold imageToBlob.
  destruct (isCorsImage ed img), (isLocalImage ed img); cbn [negb]; cbv zeta;
    (split; [split; [intros H; try discriminate H; auto | intros [H1 H2]; congruence]
            | intros H; try discriminate H; reflexivity]).
Qed.

(** X15: credentials are never sent to the proxy service and never
    together with the API key: a request with credentials is the request
    of an image on a CORS host that is also a credentials host, at the
    image's own address and without a key. *)
Theorem imageToBlob_sends_credentials_to_cors_hosts_only (ed : Ed) (img : Img)
    (url : string) (apiKey : option Key) :
  imageToBlob ed img = ProxyGetUrl url apiKey true ->
  isCorsImage ed img = true
  /\ isCorsWithCredentialsImage ed img = true
  /\ url = src img
  /\ apiKey = None.
Proof.
  unfold imageToBlob.
  destruct (isCorsImage ed img).
  - intros H; injection H as Hurl Hkey Hcred; auto.
  - destruct (negb (isLocalImage ed img)); cbv zeta; intros H; discriminate H.
Qed.

(** X16: the blob of the selected image comes from the blob cache
    whenever the cache knows the image's address; a request is made only
    on a cache miss, and it is the one [imageToBlob] makes for the
    selected image. *)
Theorem findSelectedBlob_asks_the_cache_first (ed : Ed) :
  (forall blobInfo,
     blobCache_getByUri ed (src (getSelectedImage ed)) = Some blobInfo ->
     findSelectedBlob ed = Resolved (blobInfo_blob blobInfo))
  /\ (forall url apiKey withCredentials,
        findSelectedBlob ed = ProxyGetUrl url apiKey withCredentials ->
        blobCache_getByUri ed (src (getSelectedImage ed)) = None
        /\ imageToBlob ed (getSelectedImage ed)
           = ProxyGetUrl url apiKey withCredentials).
Proof.
  unfold findSelectedBlob; split.
  - intros blobInfo Hhit; rewrite Hhit; reflexivity.
  - intros url apiKey withCredentials Hrun.
    destruct (blobCache_getByUri ed (src (getSelectedImage ed)));
      [discriminate | split; [reflexivity | exact Hrun]].
Qed.

(** X17: [isEditableImage] and [imageToBlob] agree when no proxy is
    configured: an image that [isEditableImage] accepts is then never
    asked for through the proxy service; it is converted in the browser
    or asked for at its own address on a CORS host.  An image the
    selector rejects is never editable. *)
Theorem editable_images_need_no_proxy_without_one (ed : Ed) (img : Img) :
  (dom_is ed img = false -> isEditableImage ed img = false)
  /\ (isEditableImage ed img = true ->
      settings_imagetools_proxy ed = false ->
      imageToBlob ed img = ImageToBlob img
      \/ imageToBlob ed img
         = ProxyGetUrl (src img) None (isCorsWithCredentialsImage ed img)).
Proof.
  unfold isEditableImage, imageToBlob; cbv zeta; split.
  - intros Hsel; rewrite Hsel; reflexivity.
  - intros Hedit Hproxy; rewrite Hproxy in Hedit.
    destruct (isCorsImage ed img); [right; reflexivity|].
    destruct (isLocalImage ed img); [left; reflexivity|].
    rewrite andb_false_r in Hedit; discriminate.
Qed.

End ImageToolsFacts.

(** X18: two calls of [createId] with different values of the counter
    give different identifiers, and each call moves the counter up by
    one, so no identifier is given twice. *)
Theorem createId_never_repeats (c1 c2 : N) :
  (c1 < 9007199254740992)%N ->
  (c2 < 9007199254740992)%N ->
  c1 <> c2 ->
  fst (ImageTools.createId c1) <> fst (ImageTools.createId c2)
  /\ snd (ImageTools.createId c1) = (c1 + 1)%N.
Proof.
  intros _ _ Hdiff; split; [|reflexivity].
  unfold ImageTools.createId; cbn [fst]; intros Hsame.
  apply StringFacts.append_inj_l in Hsame.
  apply (f_equal NilEmpty.uint_of_string) in Hsame.
  rewrite !NilEmpty.usu in Hsame.
  injection Hsame as Hsame.
  apply DecimalN.Unsigned.to_uint_inj in Hsame.
  exact (Hdiff Hsame).
Qed.

(* ================================================================== *)
(** * Runs of the further properties *)
(* ================================================================== *)

(** X1 on [P[ a, b, c, d ]]: the slice from [b] to [c]. *)
Lemma slice_answers_a_run_of_children_witness :
  exists before after, property_children family 0 = before ++ [2; 3] ++ after.
Proof.
  apply (slice_answers_a_run_of_children family 0
           (adt_descendant 2) (adt_descendant 3) (seq := [2; 3])).
  reflexivity.
Defined.

(** X2 on [P[ a, b, c, d ]] with the markers [b] and [c]. *)
Lemma slice_spans_located_markers_witness :
  exists seq x y,
    slice family 0 (adt_descendant 2) (adt_descendant 3) = Some seq
    /\ Z.of_nat (length seq) = (2 - 1 + 1)%Z
    /\ nth_error seq 0 = Some x /\ universe_eq 2 x = true
    /\ nth_error seq (Z.to_nat (2 - 1)) = Some y /\ universe_eq 3 y = true.
Proof.
  apply (slice_spans_located_markers family 0 2 3 (i := 1) (j := 2));
    solve [reflexivity | lia].
Defined.

(** X3 on [P[ a, b, c, d ]] with [start = b] and [finish = c]. *)
Lemma fossil_answers_a_run_of_children_witness :
  family = family
  /\ forall seq,
       Ok (Some [2; 3]) = Ok (Some seq) ->
       exists common before after,
         shared family no_root 2 3 = Some common
         /\ property_children family common = before ++ seq ++ after.
Proof.
  apply (fossil_answers_a_run_of_children None no_root 2 3 family
           (t' := family) (out := Ok (Some [2; 3]))).
  reflexivity.
Defined.

(** X4 on [P[ a, b, c, d ]] with [start = b] and [finish = c]: the answer
    is [[b; c]]. *)
Lemma fossil_between_siblings_witness :
  exists seq x y,
    fossil None no_root 2 3 family = (Ok (Some seq), family)
    /\ seq = firstn (Z.to_nat (2 - 1 + 1))
               (skipn (Z.to_nat 1) (property_children family 0))
    /\ nth_error seq 0 = Some x /\ universe_eq 2 x = true
    /\ nth_error seq (Z.to_nat (2 - 1)) = Some y /\ universe_eq 3 y = true.
Proof.
  apply (fossil_between_siblings None no_root 2 3 (common := 0) family
           (i := 1) (j := 2));
    solve [reflexivity | lia].
Defined.

(** X5 on [R[ a, b ]]: [a] is the first child, [breakAt] makes no break,
    and [breaker] leaves the tree alone. *)
Lemma breaker_keeps_the_break_witness :
  exists t1,
    Parent_breakAt 0 1 siblings = (Ok None, t1)
    /\ (@None (handle node) = None -> siblings = t1).
Proof.
  apply (breaker_keeps_the_break 0 1 siblings (t' := siblings) (r := None)).
  reflexivity.
Defined.

(** X8 on the recording editor: [hello] is set as it is. *)
Lemma setContentInternal_sets_a_plain_string_witness :
  SetContent.setContentInternal (editor := TestEditor.recording)
    (SetContent.CString "hello") TestEditor.plain TestEditor.ready
  = (SetContent.CString "hello",
     {| TestEditor.body := Some 3;
        TestEditor.prevented := false;
        TestEditor.log := [TestEditor.BeforeSetContent; TestEditor.Emptied;
                           TestEditor.Appended 0;
                           TestEditor.SetContentFired "hello"] |}).
Proof.
  apply (setContentInternal_sets_a_plain_string
           (editor := TestEditor.recording) "hello" TestEditor.plain
           TestEditor.ready
           (ed1 := TestEditor.record TestEditor.BeforeSetContent TestEditor.ready)
           (updatedArgs := SetContent.setupArgs (AstNode := nat)
                             TestEditor.plain (SetContent.CString "hello"))
           (body := 3));
    solve [reflexivity | discriminate].
Defined.

(** X9 on the recording editor without a forced root block: the empty
    string becomes the bogus line break. *)
Lemma setContentString_pads_empty_content_witness :
  SetContent.setContentString (editor := TestEditor.recording_with "" false)
    (AstNode := nat) 3 ""
    (SetContent.setupArgs (AstNode := nat) TestEditor.plain (SetContent.CString "")) TestEditor.ready
  = ({| SetContent.content := SetContent.CString SetContent.padd;
        SetContent.html := SetContent.padd |},
     TestEditor.record (TestEditor.SetHTML SetContent.padd) TestEditor.ready).
Proof.
  apply (proj1 (setContentString_pads_empty_content
                  (editor := TestEditor.recording_with "" false) 3
                  (SetContent.setupArgs (AstNode := nat) TestEditor.plain (SetContent.CString ""))
                  TestEditor.ready (or_introl eq_refl))).
Defined.

(** X10 on the recording editor, whose forced root block is [p]: two
    blanks become a paragraph around the bogus line break. *)
Lemma setContentString_wraps_blank_content_in_the_root_block_witness :
  SetContent.setContentString (editor := TestEditor.recording)
    (AstNode := nat) 3 "  "
    (SetContent.setupArgs (AstNode := nat) TestEditor.plain (SetContent.CString "  "))
    TestEditor.ready
  = ({| SetContent.content :=
          SetContent.CString ("<p>" ++ SetContent.padd ++ "</p>");
        SetContent.html := ("<p>" ++ SetContent.padd ++ "</p>")%string |},
     TestEditor.record
       (TestEditor.SetHTML ("<p>" ++ SetContent.padd ++ "</p>"))
       TestEditor.ready).
Proof.
  apply (setContentString_wraps_blank_content_in_the_root_block
           (editor := TestEditor.recording) 3 "  "
           (SetContent.setupArgs (AstNode := nat) TestEditor.plain (SetContent.CString "  "))
           TestEditor.ready);
    solve [right; reflexivity | discriminate | reflexivity].
Defined.

(** X19 on the recording editor: the tree 5 is filtered, serialised and
    written. *)
Lemma setContentInternal_sets_a_tree_witness :
  SetContent.setContentInternal (editor := TestEditor.recording)
    (SetContent.CTree 5) TestEditor.plain TestEditor.ready
  = (SetContent.CTree 5,
     {| TestEditor.body := Some 3;
        TestEditor.prevented := false;
        TestEditor.log := [TestEditor.BeforeSetContent; TestEditor.Filtered;
                           TestEditor.SetHTML "<p>tree</p>";
                           TestEditor.SetContentFired "<p>tree</p>"] |}).
Proof.
  apply (setContentInternal_sets_a_tree
           (editor := TestEditor.recording) 5 TestEditor.plain
           TestEditor.ready
           (ed1 := TestEditor.record TestEditor.BeforeSetContent TestEditor.ready)
           (updatedArgs := SetContent.setupArgs (AstNode := nat)
                             TestEditor.plain (SetContent.CTree 5))
           (body := 3));
    reflexivity.
Defined.

(** X11 on the recording editor, which never has the focus. *)
Lemma setEditorHtml_moves_the_selection_only_with_focus_witness :
  SetContent.setEditorHtml (editor := TestEditor.recording)
    (SetContent.HString "x") None TestEditor.ready
  = TestEditor.record (TestEditor.SetHTML "x") TestEditor.ready.
Proof.
  apply (setEditorHtml_moves_the_selection_only_with_focus
           (editor := TestEditor.recording) (SetContent.HString "x") None
           TestEditor.ready).
  left; reflexivity.
Defined.

(** X13 on the editor with a proxy whose URL already has a query. *)
Lemma imageToBlob_builds_the_proxy_url_witness :
  exists url,
    ImageTools.imageToBlob (host := ImageTools.testHost) ImageTools.proxied
      "http://far.example/dog.png"%string
    = ImageTools.ProxyGetUrl url (Some "key"%string) false
    /\ String.prefix "http://proxy.example/get?v=1"%string url = true
    /\ (exists before,
          url = (before ++ "url=" ++ "http://far.example/dog.png")%string)
    /\ ImageTools.indexOf url "?"%string <> (-1)%Z
    /\ (ImageTools.indexOf "http://proxy.example/get?v=1"%string "?"%string <> (-1)%Z ->
        url = "http://proxy.example/get?v=1&url=http://far.example/dog.png"%string)
    /\ (ImageTools.indexOf "http://proxy.example/get?v=1"%string "?"%string = (-1)%Z ->
        url = "http://proxy.example/get?v=1?url=http://far.example/dog.png"%string).
Proof.
  apply (imageToBlob_builds_the_proxy_url (host := ImageTools.testHost)
           ImageTools.proxied "http://far.example/dog.png"%string);
    reflexivity.
Defined.

(** X15 on the editor whose CORS host is a credentials host. *)
Lemma imageToBlob_sends_credentials_to_cors_hosts_only_witness :
  ImageTools.isCorsImage (host := ImageTools.testHost) ImageTools.trusting
    "http://cdn.example/bird.png"%string = true
  /\ ImageTools.isCorsWithCredentialsImage (host := ImageTools.testHost)
       ImageTools.trusting "http://cdn.example/bird.png"%string = true
  /\ "http://cdn.example/bird.png"%string = "http://cdn.example/bird.png"%string
  /\ @None string = None.
Proof.
  apply (imageToBlob_sends_credentials_to_cors_hosts_only
           (host := ImageTools.testHost) ImageTools.trusting
           "http://cdn.example/bird.png"%string
           (url := "http://cdn.example/bird.png"%string) (apiKey := None)).
  reflexivity.
Defined.

(** X18 on the first two values of the counter. *)
Lemma createId_never_repeats_witness :
  fst (ImageTools.createId 0) <> fst (ImageTools.createId 1)
  /\ snd (ImageTools.createId 0) = 1%N.
Proof.
  apply (createId_never_repeats (c1 := 0) (c2 := 1));
    [reflexivity | reflexivity | discriminate].
Defined.
